(** * Crypto tracker API: cache, fallback and watchlist handlers

    A shallow embedding of [src/routes/crypto.js]: the five route handlers
    ([GET /top], [GET /coin/:id], [POST /watchlist],
    [DELETE /watchlist/:coinId], [GET /watchlist]) written as programs over
    the effects they perform (clock, upstream HTTP call, persistence
    collaborator, the two module-level caches, the HTTP response), together
    with an interpreter that runs a handler to completion against a world.
    The middleware and endpoints of the application that mounts the router
    (CORS origin check, health endpoint, unknown-route fallback, error
    handler) are embedded as pure functions of what they read.

    Conventions.
    - JavaScript strings are [string]s, compared code unit by code unit.
    - [Date.now()] is an integer number of milliseconds, a [Z].
    - A handler runs to completion before the next one starts: the
      interleaving of concurrent requests at [await] points is not modelled.
    - [watchlistCache] is the plain object [{}] of the source.  Reading
      [watchlistCache[key]] finds an own property, then what the prototype
      chain provides: the members of [Object.prototype], and, once an
      assignment to [watchlistCache["__proto__"]] has installed an entry as
      the object's prototype, that entry's [data] and [cachedAt].
    - A payload is read as the JSON array of the interface is: reading the
      property [cachedAt] or [data] of a payload gives [undefined].  A
      payload that is a JSON object carrying a property of either name,
      which the upstream interface does not deliver, is outside the model. *)

From Stdlib Require Import ZArith Ascii.
From stdpp Require Import base option list sorting strings gmap.

Local Open Scope Z_scope.

(** ** Data model *)

(** A JSON value, as delivered in [response.data] by the upstream client. *)
#[local] Set Warnings "-register-all".
Inductive json : Type :=
| JNull
| JBool (b : bool)
| JNum (n : Z)
| JStr (s : string)
| JArr (items : list json)
| JObj (fields : list (string * json)).
#[local] Set Warnings "register-all".

(** JavaScript truthiness of a JSON value ([if (topCache.data)]). *)
Definition truthy (j : json) : bool :=
  match j with
  | JNull => false
  | JBool b => b
  | JNum n => negb (n =? 0)
  | JStr s => negb (String.eqb s "")
  | JArr _ => true
  | JObj _ => true
  end.

(** [{ data, cachedAt }] *)
Record CacheEntry : Type := mkEntry { data : json; cachedAt : Z }.

(** [{ coinId, coinName }] *)
Record WatchlistItem : Type := mkItem { coinId : string; coinName : string }.

(** The user document; only [watchlist] is in scope. *)
Record User : Type := mkUser { _id : string; watchlist : list WatchlistItem }.

(** The freshness window of both caches, in milliseconds. *)
Definition TTL : Z := 30000.

(** ** Responses *)

(** The three body shapes the handlers send. *)
Inductive body : Type :=
| Payload (j : json)                                   (* res.json(data) *)
| ErrorBody (error : string)                           (* { error } *)
| WatchlistBody (message : string) (wl : list WatchlistItem)
                                                       (* { message, watchlist } *)
| UndefinedBody.                                       (* res.json(undefined) *)

Record response : Type := mkResponse { status : nat; sent : body }.

(** ** What a read of [watchlistCache] yields *)

(** The value of [watchlistCache[key]]. *)
Inductive cached_value : Type :=
| Undefined                       (* no property of that name *)
| EntryObject (e : CacheEntry)    (* an entry object the handler stored *)
| InheritedMember                 (* a member of Object.prototype, or
                                     Object.prototype itself *)
| StampOfPrototype (n : Z)        (* the cachedAt of an installed prototype *)
| DataOfPrototype (j : json).     (* the data of an installed prototype *)

(** Truthiness of the value read ([cached && ...], [if (stale)]). *)
Definition truthy_value (v : cached_value) : bool :=
  match v with
  | Undefined => false
  | EntryObject _ => true
  | InheritedMember => true
  | StampOfPrototype n => negb (n =? 0)
  | DataOfPrototype j => truthy j
  end.

(** [cached.cachedAt]: a number for an entry object, [undefined] for a
    function, a number or a payload. *)
Definition cachedAt_of (v : cached_value) : option Z :=
  match v with
  | EntryObject e => Some (cachedAt e)
  | _ => None
  end.

(** [cached.data], likewise. *)
Definition data_of (v : cached_value) : option json :=
  match v with
  | EntryObject e => Some (data e)
  | _ => None
  end.

(** [(now - cached.cachedAt) < 30000]; with [cachedAt] undefined the
    difference is [NaN] and the comparison is false. *)
Definition younger_than_TTL (now : Z) (v : cached_value) : bool :=
  match cachedAt_of v with
  | Some stamp => now - stamp <? TTL
  | None => false
  end.

(** The names [Object.prototype] defines, [__proto__] apart. *)
Definition object_prototype_members : list string :=
  [ "constructor"; "hasOwnProperty"; "isPrototypeOf"; "propertyIsEnumerable";
    "toLocaleString"; "toString"; "valueOf";
    "__defineGetter__"; "__defineSetter__"; "__lookupGetter__"; "__lookupSetter__" ].

(** ** Effects *)

Inductive exn : Type := UpstreamError | PersistenceError | TypeError.

(** The state of an awaited promise. *)
Inductive settled (A : Type) : Type :=
| Resolved (a : A)
| Rejected (e : exn).
Arguments Resolved {A} a.
Arguments Rejected {A} e.

(** The three upstream queries of the file. *)
Inductive upstream_url : Type :=
| MarketsTop
| CoinDetail (id : string)
| MarketsByIds (ids : string).

Inductive effect : Type → Type :=
| DateNow : effect Z
| AxiosGet (url : upstream_url) : effect (settled json)
| FindById (userId : string) : effect (settled (option User))
| SaveUser (u : User) : effect (settled unit)
| GetTopCache : effect CacheEntry
| SetTopCache (e : CacheEntry) : effect unit
| GetWatchlistCache (key : string) : effect cached_value
| SetWatchlistCache (key : string) (e : CacheEntry) : effect unit
| Respond (r : response) : effect unit.

(** A handler body: a finite tree of effects that ends by returning or by
    throwing. *)
Inductive prog (R : Type) : Type :=
| Ret (r : R)
| Throw (e : exn)
| Do {X : Type} (ef : effect X) (k : X → prog R).
Arguments Ret {R} r.
Arguments Throw {R} e.
Arguments Do {R X} ef k.

Fixpoint bind {A B : Type} (p : prog A) (f : A → prog B) : prog B :=
  match p with
  | Ret a => f a
  | Throw e => Throw e
  | Do ef k => Do ef (λ x, bind (k x) f)
  end.

#[global] Instance prog_ret : MRet prog := @Ret.
#[global] Instance prog_bind : MBind prog := λ A B f p, bind p f.

(** [try { body } catch (error) { handler }] *)
Fixpoint try_catch {R : Type} (body : prog R) (handler : exn → prog R) : prog R :=
  match body with
  | Ret r => Ret r
  | Throw e => handler e
  | Do ef k => Do ef (λ x, try_catch (k x) handler)
  end.

Definition perform {X : Type} (ef : effect X) : prog X := Do ef Ret.

(** [await promise]: a rejection is thrown at the await. *)
Definition await {X : Type} (ef : effect (settled X)) : prog X :=
  Do ef (λ s, match s with Resolved x => Ret x | Rejected e => Throw e end).

(** [res.json(x)] and [res.status(n).json(x)] *)
Definition res_json (b : body) : prog unit := perform (Respond (mkResponse 200 b)).
Definition res_status_json (n : nat) (b : body) : prog unit :=
  perform (Respond (mkResponse n b)).

(** The body of [res.json(x)] where [x] may be [undefined]. *)
Definition body_of (x : option json) : body :=
  match x with
  | Some j => Payload j
  | None => UndefinedBody
  end.

(** Reading a property of [user], which [findById] resolves to [null] when
    no document has that id: [null.watchlist] throws a [TypeError]. *)
Definition deref (user : option User) : prog User :=
  match user with
  | Some u => Ret u
  | None => Throw TypeError
  end.

(** ** Cache key *)

(** [Array.prototype.sort()] without a comparator on an array of strings:
    ascending by code units. *)
Definition sort (ids : list string) : list string := merge_sort String.le ids.

(** [Array.prototype.join(sep)] *)
Fixpoint join (sep : string) (l : list string) : string :=
  match l with
  | [] => ""
  | [x] => x
  | x :: rest => x +:+ sep +:+ join sep rest
  end.

(** [user.watchlist.map(item => item.coinId)], sorted and joined with a comma. *)
Definition cache_key (wl : list WatchlistItem) : string :=
  join "," (sort (map coinId wl)).

(** ** Handlers *)

(** [router.get('/top', ...)] *)
Definition get_top : prog unit :=
  now ← perform DateNow;
  topCache ← perform GetTopCache;
  if truthy (data topCache) && (now - cachedAt topCache <? TTL) then
    res_json (Payload (data topCache))
  else
    try_catch
      (response ← await (AxiosGet MarketsTop);
       stamp ← perform DateNow;
       perform (SetTopCache (mkEntry response stamp));;
       res_json (Payload response))
      (λ error,
         topCache ← perform GetTopCache;
         if truthy (data topCache) then res_json (Payload (data topCache))
         else res_status_json 500 (ErrorBody "Failed to fetch crypto data")).

(** [router.get('/coin/:id', ...)] *)
Definition get_coin (id : string) : prog unit :=
  try_catch
    (response ← await (AxiosGet (CoinDetail id));
     res_json (Payload response))
    (λ error, res_status_json 500 (ErrorBody "Failed to fetch coin data")).

(** [router.post('/watchlist', auth, ...)]; [userId] is what the auth guard
    resolved, [coinId] and [coinName] come from the request body. *)
Definition post_watchlist (userId coinId' coinName' : string) : prog unit :=
  try_catch
    (user ← await (FindById userId);
     user ← deref user;
     let alreadyInWatchlist :=
       existsb (λ item, String.eqb (coinId item) coinId') (watchlist user) in
     if alreadyInWatchlist then
       res_status_json 400 (ErrorBody "Coin already in watchlist")
     else
       let wl' := watchlist user ++ [mkItem coinId' coinName'] in
       await (SaveUser (mkUser (_id user) wl'));;
       res_json (WatchlistBody "Added to watchlist" wl'))
    (λ error, res_status_json 500 (ErrorBody "Server error")).

(** [router.delete('/watchlist/:coinId', auth, ...)] *)
Definition delete_watchlist (userId coinId' : string) : prog unit :=
  try_catch
    (user ← await (FindById userId);
     user ← deref user;
     let wl' :=
       List.filter (λ item, negb (String.eqb (coinId item) coinId')) (watchlist user) in
     await (SaveUser (mkUser (_id user) wl'));;
     res_json (WatchlistBody "Removed from watchlist" wl'))
    (λ error, res_status_json 500 (ErrorBody "Server error")).

(** [router.get('/watchlist', auth, ...)]: the [try] block. *)
Definition get_watchlist_body (userId : string) : prog unit :=
  user ← await (FindById userId);
  user ← deref user;
  if (length (watchlist user) =? 0)%nat then res_json (Payload (JArr []))
  else
    let coinIdsArr := map coinId (watchlist user) in
    let sortedIds := sort coinIdsArr in
    let coinIds := join "," sortedIds in
    now ← perform DateNow;
    cached ← perform (GetWatchlistCache coinIds);
    let refresh :=
      response ← await (AxiosGet (MarketsByIds coinIds));
      stamp ← perform DateNow;
      perform (SetWatchlistCache coinIds (mkEntry response stamp));;
      res_json (Payload response) in
    if truthy_value cached && younger_than_TTL now cached then
      res_json (body_of (data_of cached))
    else refresh.

(** [router.get('/watchlist', auth, ...)]: the [catch] block. *)
Definition get_watchlist_fallback (userId : string) (error : exn) : prog unit :=
  user ← await (FindById userId);
  user ← deref user;
  let coinIdsKey := join "," (sort (map coinId (watchlist user))) in
  stale ← perform (GetWatchlistCache coinIdsKey);
  if truthy_value stale then res_json (body_of (data_of stale))
  else res_status_json 500 (ErrorBody "Failed to fetch watchlist data").

Definition get_watchlist (userId : string) : prog unit :=
  try_catch (get_watchlist_body userId) (get_watchlist_fallback userId).

(** ** Worlds and the interpreter *)

(** One performed effect, as recorded in the trace. *)
Inductive call : Type :=
| Call {X : Type} (ef : effect X).

(** A world: what the environment will answer (the successive readings of
    the clock, the outcomes of the successive upstream calls, which reads and
    writes of the persistence collaborator fail), the module-level state of
    [crypto.js] ([topCache], [watchlistCache]), the stored user records, and
    the trace of the effects performed so far, newest first.

    [watchlistCache] maps each own property of the object to the entry
    stored under it.  The name ["__proto__"] is never an own property of an
    object that is only assigned to: an assignment under it installs the
    entry as the object's prototype, and the map holds that entry under
    ["__proto__"]. *)
Record world : Type := mkWorld {
  clock : nat → Z;
  upstream : nat → option json;
  find_fails : nat → bool;
  save_fails : nat → bool;
  topCache : CacheEntry;
  watchlistCache : gmap string CacheEntry;
  users : gmap string (list WatchlistItem);
  trace : list call
}.

(** [let topCache = { data: null, cachedAt: 0 }; let watchlistCache = {};] *)
Definition initial_topCache : CacheEntry := mkEntry JNull 0.
Definition initial_watchlistCache : gmap string CacheEntry := ∅.

Definition tail {A : Type} (s : nat → A) : nat → A := λ n, s (S n).

Definition record (c : call) (w : world) : world :=
  mkWorld (clock w) (upstream w) (find_fails w) (save_fails w)
          (topCache w) (watchlistCache w) (users w) (c :: trace w).
Definition tick (w : world) : world :=
  mkWorld (tail (clock w)) (upstream w) (find_fails w) (save_fails w)
          (topCache w) (watchlistCache w) (users w) (trace w).
Definition next_upstream (w : world) : world :=
  mkWorld (clock w) (tail (upstream w)) (find_fails w) (save_fails w)
          (topCache w) (watchlistCache w) (users w) (trace w).
Definition next_find (w : world) : world :=
  mkWorld (clock w) (upstream w) (tail (find_fails w)) (save_fails w)
          (topCache w) (watchlistCache w) (users w) (trace w).
Definition next_save (w : world) : world :=
  mkWorld (clock w) (upstream w) (find_fails w) (tail (save_fails w))
          (topCache w) (watchlistCache w) (users w) (trace w).
Definition set_topCache (e : CacheEntry) (w : world) : world :=
  mkWorld (clock w) (upstream w) (find_fails w) (save_fails w)
          e (watchlistCache w) (users w) (trace w).
Definition set_watchlistCache (m : gmap string CacheEntry) (w : world) : world :=
  mkWorld (clock w) (upstream w) (find_fails w) (save_fails w)
          (topCache w) m (users w) (trace w).
Definition set_users (m : gmap string (list WatchlistItem)) (w : world) : world :=
  mkWorld (clock w) (upstream w) (find_fails w) (save_fails w)
          (topCache w) (watchlistCache w) m (trace w).

(** Modelled from the spec: the persistence collaborator [../models/User]
    ([User.findById], [user.save]) is not part of the sources.  A read either
    fails (PersistenceFault) or resolves to the stored record of that id, to
    [null] when there is none; a write either fails, leaving the stored
    record as it was, or replaces the stored watchlist as a whole. *)
Definition findById (userId : string) (w : world) : settled (option User) * world :=
  if find_fails w 0%nat then (Rejected PersistenceError, next_find w)
  else (Resolved (mkUser userId <$> users w !! userId), next_find w).

(** Modelled from the spec: [user.save()] of the absent [../models/User],
    the write described above; the document's watchlist is written under the
    document's id. *)
Definition save (u : User) (w : world) : settled unit * world :=
  if save_fails w 0%nat then (Rejected PersistenceError, next_save w)
  else (Resolved (), set_users (<[_id u := watchlist u]> (users w)) (next_save w)).

(** [axios.get(url)]: the promise resolves with [response.data] or rejects. *)
Definition axios_get (w : world) : settled json * world :=
  match upstream w 0%nat with
  | Some j => (Resolved j, next_upstream w)
  | None => (Rejected UpstreamError, next_upstream w)
  end.

(** [watchlistCache[key] = entry]: an own property, or the prototype when
    [key] is ["__proto__"]. *)
Definition write_cache (key : string) (entry : CacheEntry)
    (cache : gmap string CacheEntry) : gmap string CacheEntry :=
  <[key := entry]> cache.

(** What [Object.prototype] provides under [key]. *)
Definition inherited (key : string) : cached_value :=
  if existsb (String.eqb key) object_prototype_members then InheritedMember
  else Undefined.

(** [watchlistCache[key]]: the own property; for ["__proto__"] the
    prototype, installed or original; else what an installed prototype has
    of its own ([data], [cachedAt]); else what [Object.prototype] provides. *)
Definition read_cache (cache : gmap string CacheEntry) (key : string) : cached_value :=
  match cache !! key with
  | Some entry => EntryObject entry
  | None =>
      if String.eqb key "__proto__" then InheritedMember
      else
        match cache !! "__proto__" with
        | Some prototype =>
            if String.eqb key "data" then DataOfPrototype (data prototype)
            else if String.eqb key "cachedAt" then StampOfPrototype (cachedAt prototype)
            else inherited key
        | None => inherited key
        end
  end.

(** The meaning of one effect; every effect is recorded in the trace. *)
Definition step {X : Type} (ef : effect X) (w : world) : X * world :=
  let w := record (Call ef) w in
  match ef in effect X return X * world with
  | DateNow => (clock w 0%nat, tick w)
  | AxiosGet _ => axios_get w
  | FindById userId => findById userId w
  | SaveUser u => save u w
  | GetTopCache => (topCache w, w)
  | SetTopCache e => ((), set_topCache e w)
  | GetWatchlistCache key => (read_cache (watchlistCache w) key, w)
  | SetWatchlistCache key e =>
      ((), set_watchlistCache (write_cache key e (watchlistCache w)) w)
  | Respond _ => ((), w)
  end.

(** How a handler ends: it returns, or a fault leaves it unhandled. *)
Inductive outcome (R : Type) : Type :=
| Returned (r : R)
| Escaped (e : exn).
Arguments Returned {R} r.
Arguments Escaped {R} e.

Fixpoint run {R : Type} (p : prog R) (w : world) : outcome R * world :=
  match p with
  | Ret r => (Returned r, w)
  | Throw e => (Escaped e, w)
  | Do ef k => let '(x, w') := step ef w in run (k x) w'
  end.

(** ** Observations on a trace *)

Definition is_upstream_call (c : call) : bool :=
  match c with Call (AxiosGet _) => true | _ => false end.
Definition is_cache_lookup (c : call) : bool :=
  match c with
  | Call GetTopCache => true
  | Call (GetWatchlistCache _) => true
  | _ => false
  end.
Definition is_save (c : call) : bool :=
  match c with Call (SaveUser _) => true | _ => false end.
Definition response_of (c : call) : option response :=
  match c with Call (Respond r) => Some r | _ => None end.

Definition upstream_calls (t : list call) : nat := length (List.filter is_upstream_call t).
Definition cache_lookups (t : list call) : nat := length (List.filter is_cache_lookup t).
Definition saves (t : list call) : nat := length (List.filter is_save t).
(** The responses sent, newest first. *)
Definition responses (t : list call) : list response := omap response_of t.

(** ** Relating the worlds before and after a handler *)

(** Exactly one response was sent between [w] and [w'], and it is [r]. *)
Definition answers (w w' : world) (r : response) : Prop :=
  responses (trace w') = r :: responses (trace w).

Definition upstream_calls_made (w w' : world) (n : nat) : Prop :=
  upstream_calls (trace w') = (n + upstream_calls (trace w))%nat.
Definition cache_lookups_made (w w' : world) (n : nat) : Prop :=
  cache_lookups (trace w') = (n + cache_lookups (trace w))%nat.
Definition saves_made (w w' : world) (n : nat) : Prop :=
  saves (trace w') = (n + saves (trace w))%nat.

(** The test of [/top] for serving from the cache:
    [topCache.data && (now - topCache.cachedAt) < 30000]. *)
Definition top_entry_exists (w : world) : Prop := truthy (data (topCache w)) = true.
Definition top_entry_fresh (w : world) : Prop :=
  clock w 0%nat - cachedAt (topCache w) < TTL.

(** ** Watchlist vocabulary *)

(** The uniqueness invariant of the data model: within one watchlist the
    [coinId]s are pairwise distinct; and the same for every stored record. *)
Definition unique_coinIds (wl : list WatchlistItem) : Prop := NoDup (map coinId wl).
Definition unique_watchlists (m : gmap string (list WatchlistItem)) : Prop :=
  map_Forall (λ _ wl, unique_coinIds wl) m.

(** [without c wl wl'], in the words of the specification of Remove: [wl']
    is the sequence [wl] with the items whose [coinId] is [c] deleted and
    nothing else reordered or altered. *)
Inductive without (c : string) : list WatchlistItem → list WatchlistItem → Prop :=
| without_nil : without c [] []
| without_drop item wl wl' :
    coinId item = c → without c wl wl' → without c (item :: wl) wl'
| without_keep item wl wl' :
    coinId item ≠ c → without c wl wl' → without c (item :: wl) (item :: wl').

(** The requests of the router, and the worlds they lead to. *)
Inductive request : Type :=
| GetTop
| GetCoin (id : string)
| PostWatchlist (userId coinId' coinName' : string)
| DeleteWatchlist (userId coinId' : string)
| GetWatchlist (userId : string).

Definition handler (r : request) : prog unit :=
  match r with
  | GetTop => get_top
  | GetCoin id => get_coin id
  | PostWatchlist userId c name => post_watchlist userId c name
  | DeleteWatchlist userId c => delete_watchlist userId c
  | GetWatchlist userId => get_watchlist userId
  end.

Definition serve (w : world) (r : request) : world := (run (handler r) w).2.

(** What the [catch] block of the list handler sends for the value it read:
    [res.json(stale.data)] when the value is truthy, else the fixed 500. *)
Definition stale_response (stale : cached_value) : response :=
  if truthy_value stale then mkResponse 200 (body_of (data_of stale))
  else mkResponse 500 (ErrorBody "Failed to fetch watchlist data").

(** A key under which a read finds only what the handler stored: not the
    name of a member of [Object.prototype], nor ["__proto__"], nor the name
    of a property of an entry. *)
Definition ordinary_key (key : string) : Prop :=
  key ∉ "__proto__" :: "data" :: "cachedAt" :: object_prototype_members.

(** The responses sent between [w] and [w'] are [rs], newest first. *)
Definition sends (w w' : world) (rs : list response) : Prop :=
  responses (trace w') = rs ++ responses (trace w).

(** The statuses of the interface table. *)
Definition specified_status (r : response) : Prop :=
  status r = 200%nat ∨ status r = 400%nat ∨ status r = 500%nat.

(** A handler run that ends within the interface: the handler returns,
    having sent exactly one response, of a specified status. *)
Definition handled (p : prog unit) (w : world) : Prop :=
  ∃ w' r, run p w = (Returned (), w') ∧ answers w w' r ∧ specified_status r.

(** ** Sample worlds *)

Definition sample_payload : json :=
  JArr [JObj [("id", JStr "bitcoin"); ("current_price", JNum 64000)]].
Definition other_payload : json :=
  JArr [JObj [("id", JStr "ethereum"); ("current_price", JNum 3100)]].

Definition sample_users : gmap string (list WatchlistItem) :=
  {[ "alice" := [mkItem "eth" "Ethereum"; mkItem "btc" "Bitcoin"];
     "bob" := [mkItem "btc" "Bitcoin"; mkItem "eth" "Ethereum"];
     "carol" := [] ]}.

(** The clock reads 1000, 2000, 3000, ... *)
Definition sample_clock : nat → Z := λ n, 1000 * (1 + Z.of_nat n).
Definition never : nat → bool := λ _, false.
Definition always : nat → bool := λ _, true.

(** Just after start-up: empty caches, upstream and persistence both up. *)
Definition cold_world : world :=
  mkWorld sample_clock (λ _, Some sample_payload) never never
          initial_topCache initial_watchlistCache sample_users [].

(** A snapshot was cached half a second before the clock's next reading. *)
Definition warm_world : world :=
  mkWorld sample_clock (λ _, Some other_payload) never never
          (mkEntry sample_payload 500) initial_watchlistCache sample_users [].

(** Upstream is down; an hour-old snapshot and an hour-old entry for the
    watchlist of alice and bob are still stored. *)
Definition upstream_down_world : world :=
  mkWorld (λ n, 3600000 + sample_clock n) (λ _, None) never never
          (mkEntry sample_payload 500)
          {[ "btc,eth" := mkEntry sample_payload 700 ]} sample_users [].

(** Upstream is down and nothing was ever cached. *)
Definition cold_upstream_down_world : world :=
  mkWorld sample_clock (λ _, None) never never
          initial_topCache initial_watchlistCache sample_users [].

(** The persistence collaborator rejects every read and write. *)
Definition persistence_down_world : world :=
  mkWorld sample_clock (λ _, Some sample_payload) always always
          initial_topCache initial_watchlistCache sample_users [].

(** Upstream is down, and the persistence collaborator answers the first
    read and rejects the second. *)
Definition reread_fails_world : world :=
  mkWorld sample_clock (λ _, None) (λ n, bool_decide (n = 1%nat)) never
          initial_topCache initial_watchlistCache sample_users [].

(** ** Properties of every path of a handler *)

(** [paths p acc Q]: along every path of [p], whatever the environment
    answers, the effects performed (newest first, on top of [acc]) and the
    way the path ends satisfy [Q]. *)
Fixpoint paths {R : Type} (p : prog R) (acc : list call)
    (Q : list call → outcome R → Prop) : Prop :=
  match p with
  | Ret r => Q acc (Returned r)
  | Throw e => Q acc (Escaped e)
  | Do ef k => ∀ x, paths (k x) (Call ef :: acc) Q
  end.

Definition is_top_write (c : call) : bool :=
  match c with Call (SetTopCache _) => true | _ => false end.
Definition is_watchlist_cache_write (c : call) : bool :=
  match c with Call (SetWatchlistCache _ _) => true | _ => false end.
Definition is_find (c : call) : bool :=
  match c with Call (FindById _) => true | _ => false end.
Definition is_clock_read (c : call) : bool :=
  match c with Call DateNow => true | _ => false end.

(** No call of the kind [kind] occurs in [t]. *)
Definition none_of (kind : call → bool) (t : list call) : Prop :=
  List.filter kind t = [].

(** The effects each route is written to perform: the market routes use the
    clock, upstream, their own cache and the response; the watchlist
    mutations use the persistence collaborator and the response; the list
    route reads the user record and uses the watchlist cache. *)
Definition may_perform (r : request) (c : call) : bool :=
  match r, c with
  | _, Call (Respond _) => true
  | GetTop, Call DateNow => true
  | GetTop, Call (AxiosGet MarketsTop) => true
  | GetTop, Call GetTopCache => true
  | GetTop, Call (SetTopCache _) => true
  | GetCoin id, Call (AxiosGet (CoinDetail id')) => String.eqb id id'
  | PostWatchlist userId _ _, Call (FindById userId') => String.eqb userId userId'
  | PostWatchlist _ _ _, Call (SaveUser _) => true
  | DeleteWatchlist userId _, Call (FindById userId') => String.eqb userId userId'
  | DeleteWatchlist _ _, Call (SaveUser _) => true
  | GetWatchlist userId, Call (FindById userId') => String.eqb userId userId'
  | GetWatchlist _, Call DateNow => true
  | GetWatchlist _, Call (AxiosGet (MarketsByIds _)) => true
  | GetWatchlist _, Call (GetWatchlistCache _) => true
  | GetWatchlist _, Call (SetWatchlistCache _ _) => true
  | _, _ => false
  end.

Definition is_list_request (r : request) : Prop := ∃ userId, r = GetWatchlist userId.
Definition is_mutation (r : request) : Prop :=
  (∃ userId c name, r = PostWatchlist userId c name)
  ∨ (∃ userId c, r = DeleteWatchlist userId c).

(** The request [r] is an add or a remove made by [userId]. *)
Definition mutates (r : request) (userId : string) : Prop :=
  (∃ c name, r = PostWatchlist userId c name) ∨ (∃ c, r = DeleteWatchlist userId c).

(** Whether a coin id contains the delimiter of the cache key. *)
Fixpoint has_comma (s : string) : bool :=
  match s with
  | EmptyString => false
  | String a s' => Ascii.eqb a ","%char || has_comma s'
  end.

Definition comma_free (wl : list WatchlistItem) : Prop :=
  Forall (λ item, has_comma (coinId item) = false) wl.

(** ** The application around the router

    The middleware and endpoints of the Express application that mounts the
    router: the environment switch, the CORS origin check, the health
    endpoint, the fallback for unknown routes and the error handler.  What
    they write to the console is left out. *)

(** A response of these endpoints: status code and JSON body. *)
Record reply : Type := mkReply { code : Z; json_body : json }.

(** [JSON.stringify] of an object literal: a property whose value is
    [undefined] is left out. *)
Definition stringify (props : list (string * option json)) : json :=
  JObj (omap (λ kv, pair kv.1 <$> kv.2) props).

(** The value of property [k] in a JSON object. *)
Definition field (k : string) (j : json) : option json :=
  match j with
  | JObj fields => snd <$> List.find (λ kv, String.eqb kv.1 k) fields
  | _ => None
  end.

(** [process.env.NODE_ENV === 'production'] and its negation; a variable
    of [process.env] is a string or [undefined]. *)
Definition isProduction (NODE_ENV : option string) : bool :=
  match NODE_ENV with
  | Some v => String.eqb v "production"
  | None => false
  end.
Definition isDevelopment (NODE_ENV : option string) : bool :=
  negb (isProduction NODE_ENV).

Definition allowedOrigins : list string :=
  [ "https://sabbath-1.github.io";
    "https://sabbath-1.github.io/crypto-tracker-frontend";
    "http://localhost:3000" ].

(** [Array.prototype.indexOf] on strings: the first index holding [x], [-1]
    when there is none. *)
Fixpoint indexOf_from (l : list string) (x : string) (i : Z) : Z :=
  match l with
  | [] => -1
  | y :: l' => if String.eqb y x then i else indexOf_from l' x (i + 1)
  end.
Definition indexOf (l : list string) (x : string) : Z := indexOf_from l x 0.

(** What the origin function hands to its callback: [callback(null, true)]
    or [callback(error, false)], with the error's message. *)
Inductive cors_outcome : Type :=
| CorsAllowed
| CorsBlocked (error : string).

(** The [origin] function of the CORS options; [origin] is the request's
    Origin header, [undefined] when the request has none. *)
Definition cors_origin (NODE_ENV : option string) (origin : option string)
    : cors_outcome :=
  match origin with
  | None => CorsAllowed
  | Some o =>
      if String.eqb o "" then CorsAllowed
      else if indexOf allowedOrigins o =? -1 then
        CorsBlocked (if isDevelopment NODE_ENV then "CORS blocked: " +:+ o
                     else "Not allowed by CORS")
      else CorsAllowed
  end.

(** [app.get('/health', ...)]; [dbStatus] is
    [mongoose.connection.readyState], the other arguments are the values
    the handler reads from the clock and the process. *)
Definition health (NODE_ENV : option string) (dbStatus : Z)
    (timestamp : string) (uptime memory : json) : reply :=
  let status := if dbStatus =? 1 then "healthy" else "unhealthy" in
  mkReply (if dbStatus =? 1 then 200 else 503)
    (stringify
       [ ("status", Some (JStr status));
         ("timestamp", Some (JStr timestamp));
         ("uptime", Some uptime);
         ("database", Some (JStr (if dbStatus =? 1 then "connected" else "disconnected")));
         ("memory", Some memory);
         ("environment",
          Some (JStr match NODE_ENV with
                     | Some v => if String.eqb v "" then "development" else v
                     | None => "development"
                     end)) ]).

(** The fallback [app.use((req, res) => ...)] for requests no route took. *)
Definition not_found (NODE_ENV : option string) (url method : string) : reply :=
  mkReply 404
    (stringify
       ([ ("error", Some (JStr "Route not found")) ]
        ++ (if isDevelopment NODE_ENV
            then [ ("path", Some (JStr url)); ("method", Some (JStr method)) ]
            else []))).

(** The properties the error handler reads off the error it is given; each
    may be [undefined], and the two status properties are numbers. *)
Record JsError : Type := mkJsError {
  err_name : option string;
  err_message : option string;
  err_stack : option string;
  err_statusCode : option Z;
  err_status : option Z;
  err_errors : option json
}.

(** [a || b] where [a] is a number or [undefined]. *)
Definition or_else (a : option Z) (b : Z) : Z :=
  match a with
  | Some n => if n =? 0 then b else n
  | None => b
  end.

(** The error handler [app.use((err, req, res, next) => ...)]: the status
    code and the body it hands to [res.status(statusCode).json(response)]. *)
Definition error_handler (NODE_ENV : option string) (err : JsError) : reply :=
  let statusCode := or_else (err_statusCode err) (or_else (err_status err) 500) in
  let response :=
    [ ("error", Some (JStr "Internal server error")) ]
    ++ (if isDevelopment NODE_ENV
        then [ ("message", JStr <$> err_message err);
               ("stack", JStr <$> err_stack err) ]
        else [])
    ++ (if match err_name err with
           | Some n => String.eqb n "ValidationError"
           | None => false
           end
        then [ ("details", err_errors err) ]
        else []) in
  mkReply statusCode (stringify response).




(** Upstream is down, nothing was ever cached, and mallory watches one
    coin, whose id is the name of a member of every object. *)
Definition inherited_key_world : world :=
  mkWorld sample_clock (λ _, None) never never
          initial_topCache initial_watchlistCache
          {[ "mallory" := [mkItem "constructor" "Constructor"] ]} [].


(** The persistence collaborator answers reads and rejects writes. *)
Definition save_down_world : world :=
  mkWorld sample_clock (λ _, Some sample_payload) never always
          initial_topCache initial_watchlistCache sample_users [].


(** An error as a failed schema validation would raise it. *)
Definition sample_error : JsError :=
  mkJsError (Some "ValidationError") (Some "coinId is required")
            (Some "ValidationError: coinId is required at model.js:1")
            None (Some 422) (Some (JObj [("coinId", JStr "required")])).

Section Interpreter.
Context {R : Type}.

Lemma run_try_catch (body : prog R) (handler : exn → prog R) (w : world) :
  run (try_catch body handler) w =
  match run body w with
  | (Returned r, w') => (Returned r, w')
  | (Escaped e, w') => run (handler e) w'
  end.
Proof.
  revert w. induction body as [r|e|X ef k IH]; intros w; simpl; [done..|].
  destruct (step ef w) as [x w']. apply IH.
Qed.

Lemma run_bind {A : Type} (p : prog A) (f : A → prog R) (w : world) :
  run (bind p f) w =
  match run p w with
  | (Returned a, w') => run (f a) w'
  | (Escaped e, w') => (Escaped e, w')
  end.
Proof.
  revert w. induction p as [r|e|X ef k IH]; intros w; simpl; [done..|].
  destruct (step ef w) as [x w']. apply IH.
Qed.
End Interpreter.

(** ** Reading the watchlist cache *)

Lemma read_cache_entry (cache : gmap string CacheEntry) (key : string)
    (entry : CacheEntry) :
  cache !! key = Some entry → read_cache cache key = EntryObject entry.
Proof. unfold read_cache. by intros ->. Qed.

(** Without an entry under the key, whatever is read has no [cachedAt] and
    no [data]. *)
Lemma read_cache_no_entry (cache : gmap string CacheEntry) (key : string) :
  cache !! key = None →
  cachedAt_of (read_cache cache key) = None ∧ data_of (read_cache cache key) = None.
Proof.
  unfold read_cache, inherited. intros ->.
  destruct (String.eqb key "__proto__"); [done|].
  destruct (cache !! "__proto__"); repeat case_match; done.
Qed.

Lemma read_cache_ordinary (cache : gmap string CacheEntry) (key : string) :
  ordinary_key key → cache !! key = None → read_cache cache key = Undefined.
Proof.
  unfold ordinary_key, read_cache, inherited.
  rewrite !not_elem_of_cons. intros (Hproto & Hdata & Hstamp & Hmember) ->.
  destruct (String.eqb_spec key "__proto__") as [?|_]; [done|].
  destruct (String.eqb_spec key "data") as [?|_]; [done|].
  destruct (String.eqb_spec key "cachedAt") as [?|_]; [done|].
  assert (existsb (String.eqb key) object_prototype_members = false) as ->.
  { apply not_true_iff_false. rewrite existsb_exists.
    intros (member & Hin & ->%String.eqb_eq). by apply Hmember, list_elem_of_In. }
  by destruct (cache !! "__proto__").
Qed.

Lemma read_cache_entry_iff (cache : gmap string CacheEntry) (key : string)
    (entry : CacheEntry) :
  read_cache cache key = EntryObject entry ↔ cache !! key = Some entry.
Proof.
  split; [|apply read_cache_entry].
  destruct (cache !! key) as [entry'|] eqn:Hentry.
  - rewrite (read_cache_entry _ _ _ Hentry). by intros [= ->].
  - intros Hread. destruct (read_cache_no_entry _ _ Hentry) as [Hstamp _].
    by rewrite Hread in Hstamp.
Qed.


(** An assignment changes what is read under its own key and, when the key
    is ["__proto__"], what is read under [data] and [cachedAt]; nothing
    else. *)
Lemma read_cache_write_other (cache : gmap string CacheEntry) (key key' : string)
    (entry : CacheEntry) :
  key' ≠ key →
  (key = "__proto__" → key' ≠ "data" ∧ key' ≠ "cachedAt") →
  read_cache (write_cache key entry cache) key' = read_cache cache key'.
Proof.
  intros Hother Hproto. unfold read_cache, write_cache.
  rewrite lookup_insert_ne by done.
  destruct (cache !! key') as [entry'|]; [done|].
  destruct (String.eqb_spec key' "__proto__") as [->|Hnot]; [done|].
  destruct (decide (key = "__proto__")) as [->|Hkey].
  - rewrite lookup_insert_eq. destruct (Hproto eq_refl) as [Hdata Hstamp].
    destruct (String.eqb_spec key' "data") as [?|_]; [done|].
    destruct (String.eqb_spec key' "cachedAt") as [?|_]; [done|].
    by destruct (cache !! "__proto__").
  - by rewrite lookup_insert_ne.
Qed.

(** What is read once an assignment under ["__proto__"] has installed an
    entry as the prototype of an otherwise empty cache, and what is read
    from the empty cache itself. *)
Lemma read_cache_prototype_installed (entry : CacheEntry) :
  let cache := write_cache "__proto__" entry initial_watchlistCache in
  read_cache cache "__proto__" = EntryObject entry
  ∧ read_cache cache "data" = DataOfPrototype (data entry)
  ∧ read_cache cache "cachedAt" = StampOfPrototype (cachedAt entry)
  ∧ read_cache cache "constructor" = InheritedMember
  ∧ read_cache cache "btc,eth" = Undefined
  ∧ read_cache initial_watchlistCache "__proto__" = InheritedMember
  ∧ read_cache initial_watchlistCache "constructor" = InheritedMember
  ∧ read_cache initial_watchlistCache "data" = Undefined
  ∧ read_cache initial_watchlistCache "btc,eth" = Undefined.
Proof.
  unfold read_cache, write_cache, initial_watchlistCache. simpl.
  rewrite lookup_insert_eq, !lookup_insert_ne, !lookup_empty by done.
  simpl. done.
Qed.

(** The test [cached && (now - cached.cachedAt) < 30000] passes exactly on
    an entry under the key that is younger than the TTL. *)
Lemma hit_test (cache : gmap string CacheEntry) (key : string) (now : Z) :
  truthy_value (read_cache cache key) && younger_than_TTL now (read_cache cache key)
  = match cache !! key with
    | Some entry => now - cachedAt entry <? TTL
    | None => false
    end.
Proof.
  destruct (cache !! key) as [entry|] eqn:Hentry.
  - by rewrite (read_cache_entry _ _ _ Hentry).
  - unfold younger_than_TTL.
    destruct (read_cache_no_entry _ _ Hentry) as [-> _]. apply andb_false_r.
Qed.

(** ** The aggregate snapshot: [GET /top] *)

(** C1. A fetch of the top coins that finds a cache entry younger than the
    TTL sends that entry's payload, calls upstream zero times and leaves both
    caches as they were.  Any other fetch calls upstream exactly once; when
    that call succeeds the stored entry becomes the new payload stamped with
    the clock reading taken after the call, and the new payload is sent. *)
Theorem top_fetch_serves_fresh_or_refreshes (w : world) :
  (top_entry_exists w ∧ top_entry_fresh w →
   ∃ w', run get_top w = (Returned (), w')
     ∧ answers w w' (mkResponse 200 (Payload (data (topCache w))))
     ∧ upstream_calls_made w w' 0
     ∧ topCache w' = topCache w
     ∧ watchlistCache w' = watchlistCache w)
  ∧ (¬ (top_entry_exists w ∧ top_entry_fresh w) →
     ∃ w', run get_top w = (Returned (), w')
       ∧ upstream_calls_made w w' 1
       ∧ ∀ payload, upstream w 0%nat = Some payload →
           topCache w' = mkEntry payload (clock w 1%nat)
           ∧ answers w w' (mkResponse 200 (Payload payload))).
Proof.
  unfold top_entry_exists, top_entry_fresh, get_top. split.
  - intros [Hdata Hfresh]. apply Z.ltb_lt in Hfresh.
    simpl. rewrite Hdata, Hfresh. simpl. eexists. split; [reflexivity|]. done.
  - intros Hmiss.
    assert (truthy (data (topCache w)) && (clock w 0%nat - cachedAt (topCache w) <? TTL) = false) as Hc.
    { apply not_true_iff_false. intros [??]%andb_true_iff. apply Hmiss. split; [done|]. by apply Z.ltb_lt. }
    simpl. rewrite Hc. simpl. unfold axios_get. simpl.
    destruct (upstream w 0%nat) as [payload|] eqn:Hup; simpl.
    + eexists. split; [reflexivity|]. split; [done|]. intros ? [= <-]. done.
    + destruct (truthy (data (topCache w))); simpl; eexists; (split; [reflexivity|]); done.
Qed.

(** Cache hit after a refresh: when a fetch has just stored a truthy payload
    (a JSON array always is), a second fetch within the TTL sends the same
    payload and does not call upstream. *)
Lemma top_fetch_then_hit (w : world) (payload : json) :
  ¬ (top_entry_exists w ∧ top_entry_fresh w) →
  upstream w 0%nat = Some payload →
  truthy payload = true →
  clock w 2%nat - clock w 1%nat < TTL →
  ∃ w1 w2, run get_top w = (Returned (), w1)
    ∧ answers w w1 (mkResponse 200 (Payload payload))
    ∧ run get_top w1 = (Returned (), w2)
    ∧ answers w1 w2 (mkResponse 200 (Payload payload))
    ∧ upstream_calls_made w w2 1.
Proof.
  unfold top_entry_exists, top_entry_fresh, get_top. intros Hmiss Hup Htruthy Hwithin.
  assert (truthy (data (topCache w)) && (clock w 0%nat - cachedAt (topCache w) <? TTL)
          = false) as Hc.
  { apply not_true_iff_false. intros [??]%andb_true_iff.
    apply Hmiss. split; [done|]. by apply Z.ltb_lt. }
  apply Z.ltb_lt in Hwithin.
  simpl. rewrite Hc. simpl. unfold axios_get. simpl. rewrite Hup. simpl.
  eexists _, _. split; [reflexivity|]. split; [done|].
  simpl. unfold tail. rewrite Htruthy, Hwithin. simpl.
  split; [reflexivity|]. done.
Qed.

(** C2. When the upstream call of a top-coins fetch fails, the handler still
    returns and leaves the stored entry alone: with an entry in the cache its
    payload is sent with status 200, however old it is; with none the
    response is the fixed 500 error, after one upstream call. *)
Theorem top_fetch_upstream_failure (w : world) :
  upstream w 0%nat = None →
  ∃ w', run get_top w = (Returned (), w')
    ∧ topCache w' = topCache w
    ∧ (top_entry_exists w →
       answers w w' (mkResponse 200 (Payload (data (topCache w)))))
    ∧ (top_entry_exists w → ¬ top_entry_fresh w → upstream_calls_made w w' 1)
    ∧ (¬ top_entry_exists w →
       answers w w' (mkResponse 500 (ErrorBody "Failed to fetch crypto data"))
       ∧ upstream_calls_made w w' 1).
Proof.
  unfold top_entry_exists, top_entry_fresh, get_top. intros Hup. simpl.
  destruct (truthy (data (topCache w))) eqn:Hdata; simpl.
  - destruct (clock w 0%nat - cachedAt (topCache w) <? TTL) eqn:Hfresh; simpl.
    + eexists. split; [reflexivity|]. apply Z.ltb_lt in Hfresh. done.
    + unfold axios_get. simpl. rewrite Hup. simpl. rewrite Hdata. simpl.
      eexists. split; [reflexivity|]. done.
  - unfold axios_get. simpl. rewrite Hup. simpl. rewrite Hdata. simpl.
    eexists. split; [reflexivity|]. done.
Qed.

(** ** The watchlist manager: [POST], [DELETE] and [GET /watchlist] *)

Lemma existsb_coinId (c : string) (wl : list WatchlistItem) :
  existsb (λ item, String.eqb (coinId item) c) wl = true ↔ c ∈ map coinId wl.
Proof.
  rewrite existsb_exists, list_elem_of_fmap. split.
  - intros (item & Hin & Heq). apply String.eqb_eq in Heq.
    exists item. split; [done|]. by apply list_elem_of_In.
  - intros (item & -> & Hin). exists item. split; [by apply list_elem_of_In|].
    apply String.eqb_refl.
Qed.

Lemma filter_other_coinIds_absent (c : string) (wl : list WatchlistItem) :
  c ∉ map coinId wl →
  List.filter (λ item, negb (String.eqb (coinId item) c)) wl = wl.
Proof.
  induction wl as [|item wl IH]; simpl; [done|].
  rewrite not_elem_of_cons. intros [Hne Hnotin].
  destruct (String.eqb_spec (coinId item) c) as [Heq|_]; [by destruct Hne|].
  simpl. by rewrite IH.
Qed.

(** C4. Adding a coin whose id is already in the loaded watchlist is
    answered with status 400 and the duplicate message, without any write
    to the persistence collaborator, and the stored records stay as they
    were; adding an absent id appends the new item at the end, persists the
    list and sends the whole updated list. *)
Theorem add_rejects_duplicate_else_appends
    (w : world) (userId c name : string) (wl : list WatchlistItem) :
  users w !! userId = Some wl →
  find_fails w 0%nat = false →
  (c ∈ map coinId wl →
   ∃ w', run (post_watchlist userId c name) w = (Returned (), w')
     ∧ answers w w' (mkResponse 400 (ErrorBody "Coin already in watchlist"))
     ∧ saves_made w w' 0
     ∧ users w' = users w
     ∧ length <$> users w' !! userId = Some (length wl))
  ∧ (c ∉ map coinId wl → save_fails w 0%nat = false →
     ∃ w', run (post_watchlist userId c name) w = (Returned (), w')
       ∧ answers w w'
           (mkResponse 200 (WatchlistBody "Added to watchlist" (wl ++ [mkItem c name])))
       ∧ saves_made w w' 1
       ∧ users w' = <[userId := wl ++ [mkItem c name]]> (users w)).
Proof.
  intros Hwl Hfind. unfold post_watchlist. split.
  - intros Hdup%existsb_coinId.
    simpl. unfold findById. simpl. rewrite Hfind, Hwl. simpl. rewrite Hdup. simpl.
    eexists. split; [reflexivity|]. simpl. rewrite Hwl. done.
  - intros Hnew Hsave.
    assert (existsb (λ item, String.eqb (coinId item) c) wl = false) as Hex.
    { apply not_true_iff_false. by rewrite existsb_coinId. }
    simpl. unfold findById. simpl. rewrite Hfind, Hwl. simpl. rewrite Hex. simpl.
    unfold save. simpl. rewrite Hsave. simpl.
    eexists. split; [reflexivity|]. done.
Qed.

(** C5. Removing a coin id that is not in the loaded watchlist succeeds:
    the list written to the persistence collaborator and the list sent back
    are both the list that was loaded, and the stored records are unchanged. *)
Theorem remove_absent_is_noop
    (w : world) (userId c : string) (wl : list WatchlistItem) :
  users w !! userId = Some wl →
  c ∉ map coinId wl →
  find_fails w 0%nat = false →
  save_fails w 0%nat = false →
  ∃ w', run (delete_watchlist userId c) w = (Returned (), w')
    ∧ trace w' =
        Call (Respond (mkResponse 200 (WatchlistBody "Removed from watchlist" wl)))
        :: Call (SaveUser (mkUser userId wl))
        :: Call (FindById userId) :: trace w
    ∧ users w' !! userId = Some wl
    ∧ users w' = users w.
Proof.
  intros Hwl Hnotin Hfind Hsave. unfold delete_watchlist.
  simpl. unfold findById. simpl. rewrite Hfind, Hwl. simpl.
  unfold save. simpl. rewrite Hsave. simpl.
  rewrite (filter_other_coinIds_absent _ _ Hnotin).
  eexists. split; [reflexivity|]. simpl.
  split; [done|]. split; [by rewrite lookup_insert_eq|]. by apply insert_id.
Qed.

(** C6. Listing the watchlist of a user who watches nothing sends status
    200 with the empty array right after the record is read: no cache is
    looked up and upstream is not called. *)
Theorem list_empty_short_circuits (w : world) (userId : string) :
  users w !! userId = Some [] →
  find_fails w 0%nat = false →
  ∃ w', run (get_watchlist userId) w = (Returned (), w')
    ∧ trace w' =
        Call (Respond (mkResponse 200 (Payload (JArr []))))
        :: Call (FindById userId) :: trace w
    ∧ cache_lookups_made w w' 0
    ∧ upstream_calls_made w w' 0
    ∧ answers w w' (mkResponse 200 (Payload (JArr [])))
    ∧ watchlistCache w' = watchlistCache w.
Proof.
  intros Hwl Hfind. unfold get_watchlist, get_watchlist_body.
  simpl. unfold findById. simpl. rewrite Hfind, Hwl. simpl.
  eexists. split; [reflexivity|]. done.
Qed.

Lemma filter_other_coinIds_without (c : string) (wl : list WatchlistItem) :
  without c wl (List.filter (λ item, negb (String.eqb (coinId item) c)) wl).
Proof.
  induction wl as [|item wl IH]; simpl; [constructor|].
  destruct (String.eqb_spec (coinId item) c) as [Heq|Hne]; simpl.
  - by apply without_drop.
  - by apply without_keep.
Qed.

Lemma without_functional (c : string) (wl wl1 wl2 : list WatchlistItem) :
  without c wl wl1 → without c wl wl2 → wl1 = wl2.
Proof.
  intros H1. revert wl2.
  induction H1 as [|item wl wl1 Heq _ IH|item wl wl1 Hne _ IH];
    intros wl2 H2; inversion H2; subst; try done; auto.
  f_equal. auto.
Qed.

Lemma without_sublist (c : string) (wl wl' : list WatchlistItem) :
  without c wl wl' → wl' `sublist_of` wl.
Proof.
  induction 1; [constructor| by apply sublist_cons | by apply sublist_skip].
Qed.

Lemma without_absent (c : string) (wl wl' : list WatchlistItem) :
  without c wl wl' → c ∉ map coinId wl'.
Proof.
  induction 1 as [| |item wl wl' Hne _ IH]; simpl; [apply not_elem_of_nil|done|].
  apply not_elem_of_cons. split; [done|]. exact IH.
Qed.

(** C10. A removal that goes through stores and sends one and the same
    list: the loaded watchlist with every item of the given [coinId] deleted
    (all of them, so the id no longer occurs) and the remaining items in
    their original order. *)
Theorem remove_deletes_all_matches_in_order
    (w : world) (userId c : string) (wl : list WatchlistItem) :
  users w !! userId = Some wl →
  find_fails w 0%nat = false →
  save_fails w 0%nat = false →
  ∃ w' wl', run (delete_watchlist userId c) w = (Returned (), w')
    ∧ users w' !! userId = Some wl'
    ∧ answers w w' (mkResponse 200 (WatchlistBody "Removed from watchlist" wl'))
    ∧ without c wl wl'
    ∧ (c ∉ map coinId wl')
    ∧ (wl' `sublist_of` wl)
    ∧ (∀ item, item ∈ wl → coinId item ≠ c → item ∈ wl').
Proof.
  intros Hwl Hfind Hsave. unfold delete_watchlist.
  simpl. unfold findById. simpl. rewrite Hfind, Hwl. simpl.
  unfold save. simpl. rewrite Hsave. simpl.
  pose proof (filter_other_coinIds_without c wl) as Hwo.
  eexists _, _. split; [reflexivity|]. simpl.
  split; [by rewrite lookup_insert_eq|]. split; [done|]. split; [done|].
  split; [by eapply without_absent|]. split; [by eapply without_sublist|].
  intros item Hin Hne. apply list_elem_of_In, filter_In.
  split; [by apply list_elem_of_In|].
  by destruct (String.eqb_spec (coinId item) c).
Qed.

(** *** Which handlers write user records *)

Lemma get_top_users (w : world) : users (run get_top w).2 = users w.
Proof.
  unfold get_top. simpl.
  destruct (truthy (data (topCache w)) && _); simpl; [done|].
  unfold axios_get. simpl. destruct (upstream w 0%nat); simpl; [done|].
  by destruct (truthy (data (topCache w))).
Qed.

Lemma get_coin_users (id : string) (w : world) :
  users (run (get_coin id) w).2 = users w.
Proof.
  unfold get_coin. simpl. unfold axios_get. simpl.
  by destruct (upstream w 0%nat).
Qed.

Lemma get_watchlist_fallback_users (userId : string) (e : exn) (w : world) :
  users (run (get_watchlist_fallback userId e) w).2 = users w.
Proof.
  unfold get_watchlist_fallback. simpl. unfold findById. simpl.
  destruct (find_fails w 0%nat); simpl; [done|].
  destruct (users w !! userId) as [wl|]; simpl; [|done].
  by destruct (truthy_value _).
Qed.

Lemma get_watchlist_body_users (userId : string) (w : world) :
  users (run (get_watchlist_body userId) w).2 = users w.
Proof.
  unfold get_watchlist_body. simpl. unfold findById. simpl.
  destruct (find_fails w 0%nat); simpl; [done|].
  destruct (users w !! userId) as [wl|]; simpl; [|done].
  destruct (length wl =? 0)%nat; simpl; [done|].
  assert (∀ w1 k, users w1 = users w →
    users (run (response ← await (AxiosGet (MarketsByIds k));
                stamp ← perform DateNow;
                perform (SetWatchlistCache k (mkEntry response stamp));;
                res_json (Payload response)) w1).2 = users w) as Hrefresh.
  { intros w1 k Hw1. simpl. unfold axios_get. simpl.
    by destruct (upstream w1 0%nat). }
  destruct (truthy_value _ && _); [done|]. by apply Hrefresh.
Qed.

Lemma get_watchlist_users (userId : string) (w : world) :
  users (run (get_watchlist userId) w).2 = users w.
Proof.
  unfold get_watchlist. rewrite run_try_catch.
  pose proof (get_watchlist_body_users userId w) as Hbody.
  destruct (run (get_watchlist_body userId) w) as [[[]|e] w1]; [done|].
  simpl in Hbody. by rewrite get_watchlist_fallback_users.
Qed.

Lemma post_watchlist_users (userId c name : string) (w : world) :
  users (run (post_watchlist userId c name) w).2 = users w
  ∨ ∃ wl, users w !! userId = Some wl ∧ (c ∉ map coinId wl)
      ∧ users (run (post_watchlist userId c name) w).2
        = <[userId := wl ++ [mkItem c name]]> (users w).
Proof.
  unfold post_watchlist. simpl. unfold findById. simpl.
  destruct (find_fails w 0%nat); simpl; [by left|].
  destruct (users w !! userId) as [wl|] eqn:Hwl; simpl; [|by left].
  destruct (existsb _ wl) eqn:Hex; simpl; [by left|].
  unfold save. simpl. destruct (save_fails w 0%nat); simpl; [by left|].
  right. exists wl. split; [done|]. split; [|done].
  rewrite <- existsb_coinId. by rewrite Hex.
Qed.

Lemma delete_watchlist_users (userId c : string) (w : world) :
  users (run (delete_watchlist userId c) w).2 = users w
  ∨ ∃ wl, users w !! userId = Some wl
      ∧ users (run (delete_watchlist userId c) w).2
        = <[userId := List.filter (λ item, negb (String.eqb (coinId item) c)) wl]>
            (users w).
Proof.
  unfold delete_watchlist. simpl. unfold findById. simpl.
  destruct (find_fails w 0%nat); simpl; [by left|].
  destruct (users w !! userId) as [wl|] eqn:Hwl; simpl; [|by left].
  unfold save. simpl. destruct (save_fails w 0%nat); simpl; [by left|].
  right. by exists wl.
Qed.

Lemma unique_coinIds_push (c name : string) (wl : list WatchlistItem) :
  unique_coinIds wl → c ∉ map coinId wl → unique_coinIds (wl ++ [mkItem c name]).
Proof.
  unfold unique_coinIds. intros Hnd Hnotin. rewrite map_app. simpl.
  apply NoDup_app. split; [done|]. split; [|apply NoDup_singleton].
  intros x Hx ->%list_elem_of_singleton. done.
Qed.

Lemma unique_coinIds_without (c : string) (wl wl' : list WatchlistItem) :
  without c wl wl' → unique_coinIds wl → unique_coinIds wl'.
Proof.
  unfold unique_coinIds. intros Hwo%without_sublist Hnd.
  apply (fmap_sublist coinId) in Hwo. by eapply sublist_NoDup.
Qed.

Lemma serve_preserves_unique (w : world) (r : request) :
  unique_watchlists (users w) → unique_watchlists (users (serve w r)).
Proof.
  unfold serve. intros Hinv.
  destruct r as [|id|userId c name|userId c|userId]; cbn [handler].
  - by rewrite get_top_users.
  - by rewrite get_coin_users.
  - destruct (post_watchlist_users userId c name w) as [->|(wl & Hwl & Hnew & ->)];
      [done|].
    apply map_Forall_insert_2; [|done].
    apply unique_coinIds_push; [|done]. by apply (Hinv userId).
  - destruct (delete_watchlist_users userId c w) as [->|(wl & Hwl & ->)]; [done|].
    apply map_Forall_insert_2; [|done].
    eapply unique_coinIds_without; [apply filter_other_coinIds_without|].
    by apply (Hinv userId).
  - by rewrite get_watchlist_users.
Qed.

(** C9. The uniqueness invariant is kept by every request.  From a world
    whose stored watchlists all have pairwise distinct [coinId]s, any
    sequence of requests (adds, removes, lists, market fetches, with whatever
    upstream and persistence failures) leads to a world with the same
    property; in particular one Add and one Remove do. *)
Theorem watchlist_uniqueness_invariant (w : world) (requests : list request) :
  unique_watchlists (users w) →
  unique_watchlists (users (foldl serve w requests))
  ∧ (∀ userId c name, unique_watchlists (users (serve w (PostWatchlist userId c name))))
  ∧ (∀ userId c, unique_watchlists (users (serve w (DeleteWatchlist userId c)))).
Proof.
  intros Hinv. split; [|split; intros; by apply serve_preserves_unique].
  revert w Hinv. induction requests as [|r requests IH]; intros w Hinv; simpl; [done|].
  apply IH. by apply serve_preserves_unique.
Qed.

(** ** The set fetch behind [GET /watchlist] *)


Lemma sort_permutation (ids : list string) : sort ids ≡ₚ ids.
Proof. apply merge_sort_Permutation. Qed.



Lemma length_eqb_0_false {A : Type} (l : list A) : l ≠ [] → (length l =? 0)%nat = false.
Proof. by destruct l. Qed.


Lemma get_watchlist_escaped (userId : string) (e : exn) (w w1 : world) :
  run (get_watchlist_body userId) w = (Escaped e, w1) →
  run (get_watchlist userId) w = run (get_watchlist_fallback userId e) w1.
Proof. intros Hbody. unfold get_watchlist. by rewrite run_try_catch, Hbody. Qed.




(** The [catch] block of the list handler, started in any world [w1]: it
    reads the user record again, derives the key from the watchlist it has
    just read, and answers from what it reads under that key. *)
Lemma get_watchlist_fallback_rereads
    (w1 : world) (userId : string) (e : exn) (wl : list WatchlistItem) :
  users w1 !! userId = Some wl →
  find_fails w1 0%nat = false →
  ∃ w', run (get_watchlist_fallback userId e) w1 = (Returned (), w')
    ∧ trace w' =
        Call (Respond (stale_response (read_cache (watchlistCache w1) (cache_key wl))))
        :: Call (GetWatchlistCache (cache_key wl))
        :: Call (FindById userId) :: trace w1
    ∧ watchlistCache w' = watchlistCache w1
    ∧ users w' = users w1.
Proof.
  intros Hwl Hfind. unfold get_watchlist_fallback, stale_response.
  simpl. unfold findById. simpl. rewrite Hfind, Hwl. simpl.
  change (join "," (sort (map coinId wl))) with (cache_key wl).
  destruct (truthy_value (read_cache (watchlistCache w1) (cache_key wl))); simpl;
    eexists; (split; [reflexivity|done]).
Qed.

(** The [try] block of the list handler when upstream fails: the failure
    is thrown after one upstream call, with the caches and the stored
    records as they were. *)
Lemma get_watchlist_body_upstream_fails
    (w : world) (userId : string) (wl : list WatchlistItem) :
  users w !! userId = Some wl →
  wl ≠ [] →
  find_fails w 0%nat = false →
  (∀ entry, watchlistCache w !! cache_key wl = Some entry →
            TTL ≤ clock w 0%nat - cachedAt entry) →
  upstream w 0%nat = None →
  ∃ w1, run (get_watchlist_body userId) w = (Escaped UpstreamError, w1)
    ∧ trace w1 =
        Call (AxiosGet (MarketsByIds (cache_key wl)))
        :: Call (GetWatchlistCache (cache_key wl))
        :: Call DateNow
        :: Call (FindById userId) :: trace w
    ∧ users w1 = users w
    ∧ watchlistCache w1 = watchlistCache w
    ∧ find_fails w1 = tail (find_fails w).
Proof.
  intros Hwl Hne Hfind0 Hstale Hup. unfold get_watchlist_body.
  simpl. unfold findById. simpl. rewrite Hfind0, Hwl. simpl.
  rewrite (length_eqb_0_false _ Hne). simpl.
  change (join "," (sort (map coinId wl))) with (cache_key wl).
  rewrite hit_test.
  destruct (watchlistCache w !! cache_key wl) as [entry|] eqn:Hentry.
  - specialize (Hstale entry eq_refl).
    apply Z.ltb_ge in Hstale. rewrite Hstale.
    simpl. unfold axios_get. simpl. rewrite Hup. simpl.
    eexists. split; [reflexivity|]. done.
  - simpl. unfold axios_get. simpl. rewrite Hup. simpl.
    eexists. split; [reflexivity|]. done.
Qed.

(** When the upstream call of a list request fails, the handler reads the
    user record a second time, derives the key from that second read, and
    answers from what it reads under that key: an entry stored there is sent
    with status 200, stale as it is; with nothing stored under an ordinary
    key the response is the fixed 500 error. *)
Lemma list_upstream_failure_reads_cache
    (w : world) (userId : string) (wl : list WatchlistItem) :
  users w !! userId = Some wl →
  wl ≠ [] →
  find_fails w 0%nat = false →
  find_fails w 1%nat = false →
  (∀ entry, watchlistCache w !! cache_key wl = Some entry →
            TTL ≤ clock w 0%nat - cachedAt entry) →
  upstream w 0%nat = None →
  ∃ w' r, run (get_watchlist userId) w = (Returned (), w')
    ∧ trace w' =
        Call (Respond r)
        :: Call (GetWatchlistCache (cache_key wl))
        :: Call (FindById userId)
        :: Call (AxiosGet (MarketsByIds (cache_key wl)))
        :: Call (GetWatchlistCache (cache_key wl))
        :: Call DateNow
        :: Call (FindById userId) :: trace w
    ∧ r = stale_response (read_cache (watchlistCache w) (cache_key wl))
    ∧ (∀ entry, watchlistCache w !! cache_key wl = Some entry →
                r = mkResponse 200 (Payload (data entry)))
    ∧ (watchlistCache w !! cache_key wl = None → ordinary_key (cache_key wl) →
       r = mkResponse 500 (ErrorBody "Failed to fetch watchlist data"))
    ∧ watchlistCache w' = watchlistCache w.
Proof.
  intros Hwl Hne Hfind0 Hfind1 Hstale Hup.
  destruct (get_watchlist_body_upstream_fails w userId wl)
    as (w1 & Hbody & Htrace & Husers & Hcache & Hfinds); [done..|].
  destruct (get_watchlist_fallback_rereads w1 userId UpstreamError wl)
    as (w' & Hrun & Htrace' & Hcache' & _).
  { by rewrite Husers. }
  { by rewrite Hfinds. }
  exists w', (stale_response (read_cache (watchlistCache w) (cache_key wl))).
  split; [by rewrite (get_watchlist_escaped _ _ _ _ Hbody)|].
  rewrite Hcache in Htrace'.
  split; [by rewrite Htrace', Htrace|]. split; [done|].
  split; [|split; [|congruence]].
  - intros entry Hentry. by rewrite (read_cache_entry _ _ _ Hentry).
  - intros Hnone Hordinary. by rewrite (read_cache_ordinary _ _ Hordinary Hnone).
Qed.

(** C7. The stale fallback of the list handler answers 200 where nothing
    was ever stored.  For a user whose watchlist is the one coin
    "constructor", with an empty cache and upstream failing, the [catch]
    block reads [watchlistCache["constructor"]], finds the member that every
    object inherits, takes it for a stale entry and sends its [data], which
    is [undefined], with status 200, instead of the 500 error. *)
Theorem list_inherited_key_taken_for_stale_entry :
  watchlistCache inherited_key_world !! cache_key [mkItem "constructor" "Constructor"]
  = None
  ∧ ∃ w', run (get_watchlist "mallory") inherited_key_world = (Returned (), w')
      ∧ upstream_calls_made inherited_key_world w' 1
      ∧ answers inherited_key_world w' (mkResponse 200 UndefinedBody)
      ∧ trace w' =
          [ Call (Respond (mkResponse 200 UndefinedBody));
            Call (GetWatchlistCache "constructor");
            Call (FindById "mallory");
            Call (AxiosGet (MarketsByIds "constructor"));
            Call (GetWatchlistCache "constructor");
            Call DateNow;
            Call (FindById "mallory") ].
Proof.
  split; [by vm_compute|].
  exists (run (get_watchlist "mallory") inherited_key_world).2.
  split; [by vm_compute|]. split; [by vm_compute|]. split; by vm_compute.
Qed.

(** ** Faults at the handler boundary *)

(** Closes a branch in which the handler has returned after one response. *)
Ltac responded :=
  eexists _, _; (split; [reflexivity|]); (split; [done|]); simpl; auto.

Lemma get_top_handled (w : world) : handled get_top w.
Proof.
  unfold handled, specified_status, get_top. simpl.
  destruct (truthy (data (topCache w)) && _); simpl.
  { responded. }
  unfold axios_get. simpl. destruct (upstream w 0%nat); simpl.
  { responded. }
  destruct (truthy (data (topCache w))); simpl; responded.
Qed.

Lemma get_coin_handled (id : string) (w : world) : handled (get_coin id) w.
Proof.
  unfold handled, specified_status, get_coin. simpl. unfold axios_get. simpl.
  destruct (upstream w 0%nat); simpl; responded.
Qed.

Lemma post_watchlist_handled (userId c name : string) (w : world) :
  handled (post_watchlist userId c name) w.
Proof.
  unfold handled, specified_status, post_watchlist. simpl. unfold findById. simpl.
  destruct (find_fails w 0%nat); simpl; [responded|].
  destruct (users w !! userId) as [wl|]; simpl; [|responded].
  destruct (existsb _ wl); simpl; [responded|].
  unfold save. simpl.
  destruct (save_fails w 0%nat); simpl; responded.
Qed.

Lemma delete_watchlist_handled (userId c : string) (w : world) :
  handled (delete_watchlist userId c) w.
Proof.
  unfold handled, specified_status, delete_watchlist. simpl. unfold findById. simpl.
  destruct (find_fails w 0%nat); simpl; [responded|].
  destruct (users w !! userId) as [wl|]; simpl; [|responded].
  unfold save. simpl.
  destruct (save_fails w 0%nat); simpl; responded.
Qed.

(** Whatever sends the list handler into its [catch] block, a rejected
    second read leaves the handler as an unhandled fault, with no response. *)
Lemma get_watchlist_fallback_fault (userId : string) (e : exn) (w1 : world) :
  find_fails w1 0%nat = true →
  ∃ w', run (get_watchlist_fallback userId e) w1 = (Escaped PersistenceError, w')
    ∧ responses (trace w') = responses (trace w1).
Proof.
  intros Hfind. unfold get_watchlist_fallback.
  simpl. unfold findById. simpl. rewrite Hfind. simpl.
  eexists. split; [reflexivity|done].
Qed.

(** C8. Not every fault is caught at the handler boundary.  A list request
    made while the persistence collaborator rejects reads falls into the
    [catch] block, whose own read is rejected too: the fault leaves the
    handler and no response is sent.  The same happens when the upstream
    call fails and the second read is the one that is rejected. *)
Theorem list_fault_in_fallback_escapes :
  (∃ w', run (get_watchlist "alice") persistence_down_world
         = (Escaped PersistenceError, w')
     ∧ responses (trace w') = [])
  ∧ (∃ w', run (get_watchlist "alice") reread_fails_world
           = (Escaped PersistenceError, w')
       ∧ responses (trace w') = []
       ∧ upstream_calls (trace w') = 1%nat)
  ∧ ¬ handled (get_watchlist "alice") persistence_down_world
  ∧ ¬ handled (get_watchlist "alice") reread_fails_world.
Proof.
  split; [eexists; split; reflexivity|].
  split; [eexists; split; [reflexivity|split; reflexivity]|].
  split; intros (w' & r & Hrun & _); vm_compute in Hrun; discriminate Hrun.
Qed.

Lemma get_watchlist_unknown_user_escapes (userId : string) (w : world) :
  users w !! userId = None →
  find_fails w 0%nat = false →
  find_fails w 1%nat = false →
  ∃ w', run (get_watchlist userId) w = (Escaped TypeError, w')
    ∧ responses (trace w') = responses (trace w).
Proof.
  intros Hnone Hfind0 Hfind1. unfold get_watchlist, get_watchlist_body.
  simpl. unfold findById. simpl. rewrite Hfind0, Hnone. simpl.
  unfold findById. simpl. unfold tail. rewrite Hfind1, Hnone. simpl.
  eexists. split; [reflexivity|done].
Qed.

(** ** The theorems on the sample worlds *)

Lemma top_fetch_serves_fresh_or_refreshes_witness :
  (∃ w', run get_top warm_world = (Returned (), w')
     ∧ answers warm_world w' (mkResponse 200 (Payload sample_payload))
     ∧ upstream_calls_made warm_world w' 0
     ∧ topCache w' = mkEntry sample_payload 500
     ∧ watchlistCache w' = ∅)
  ∧ (∃ w', run get_top cold_world = (Returned (), w')
       ∧ upstream_calls_made cold_world w' 1
       ∧ topCache w' = mkEntry sample_payload 2000
       ∧ answers cold_world w' (mkResponse 200 (Payload sample_payload))).
Proof.
  split.
  - apply (top_fetch_serves_fresh_or_refreshes warm_world).
    split; [reflexivity|reflexivity].
  - destruct (top_fetch_serves_fresh_or_refreshes cold_world) as [_ Hmiss].
    destruct Hmiss as (w' & Hrun & Hcalls & Hok).
    { intros [Hexists _]. discriminate Hexists. }
    exists w'. split; [exact Hrun|]. split; [exact Hcalls|].
    apply Hok. reflexivity.
Defined.

Lemma top_fetch_upstream_failure_witness :
  ∃ w', run get_top upstream_down_world = (Returned (), w')
    ∧ answers upstream_down_world w' (mkResponse 200 (Payload sample_payload))
    ∧ upstream_calls_made upstream_down_world w' 1.
Proof.
  destruct (top_fetch_upstream_failure upstream_down_world)
    as (w' & Hrun & _ & Hserved & Hcalled & _); [reflexivity|].
  exists w'. split; [exact Hrun|]. split.
  - apply Hserved. reflexivity.
  - apply Hcalled; [reflexivity|]. unfold top_entry_fresh. simpl.
    unfold TTL, sample_clock. lia.
Defined.


Lemma add_rejects_duplicate_else_appends_witness :
  (∃ w', run (post_watchlist "alice" "btc" "Bitcoin") cold_world = (Returned (), w')
     ∧ answers cold_world w' (mkResponse 400 (ErrorBody "Coin already in watchlist"))
     ∧ saves_made cold_world w' 0
     ∧ users w' = sample_users)
  ∧ (∃ w', run (post_watchlist "alice" "ada" "Cardano") cold_world = (Returned (), w')
       ∧ users w' !! "alice"
         = Some [mkItem "eth" "Ethereum"; mkItem "btc" "Bitcoin"; mkItem "ada" "Cardano"]).
Proof.
  split.
  - destruct (add_rejects_duplicate_else_appends cold_world "alice" "btc" "Bitcoin"
                [mkItem "eth" "Ethereum"; mkItem "btc" "Bitcoin"])
      as [Hdup _]; [reflexivity..|].
    destruct Hdup as (w' & Hrun & Hans & Hsaves & Husers & _).
    { simpl. apply list_elem_of_In. simpl. auto. }
    exists w'. repeat split; assumption.
  - destruct (add_rejects_duplicate_else_appends cold_world "alice" "ada" "Cardano"
                [mkItem "eth" "Ethereum"; mkItem "btc" "Bitcoin"])
      as [_ Hnew]; [reflexivity..|].
    destruct Hnew as (w' & Hrun & _ & _ & Husers).
    { simpl. intros Hin%list_elem_of_In. simpl in Hin.
      destruct Hin as [Heq|[Heq|[]]]; discriminate Heq. }
    { reflexivity. }
    exists w'. split; [exact Hrun|]. rewrite Husers. apply lookup_insert_eq.
Defined.

Lemma remove_absent_is_noop_witness :
  ∃ w', run (delete_watchlist "alice" "doge") cold_world = (Returned (), w')
    ∧ users w' = sample_users.
Proof.
  destruct (remove_absent_is_noop cold_world "alice" "doge"
              [mkItem "eth" "Ethereum"; mkItem "btc" "Bitcoin"])
    as (w' & Hrun & _ & _ & Husers).
  - reflexivity.
  - simpl. intros Hin%list_elem_of_In. simpl in Hin.
    destruct Hin as [Heq|[Heq|[]]]; discriminate Heq.
  - reflexivity.
  - reflexivity.
  - exists w'. split; assumption.
Defined.

Lemma list_empty_short_circuits_witness :
  ∃ w', run (get_watchlist "carol") cold_world = (Returned (), w')
    ∧ cache_lookups_made cold_world w' 0
    ∧ upstream_calls_made cold_world w' 0
    ∧ answers cold_world w' (mkResponse 200 (Payload (JArr []))).
Proof.
  destruct (list_empty_short_circuits cold_world "carol")
    as (w' & Hrun & _ & Hlookups & Hcalls & Hans & _); [reflexivity..|].
  exists w'. repeat split; assumption.
Defined.

Lemma watchlist_uniqueness_invariant_witness :
  unique_watchlists
    (users (foldl serve cold_world
              [PostWatchlist "alice" "ada" "Cardano";
               PostWatchlist "alice" "ada" "Cardano";
               DeleteWatchlist "bob" "btc";
               GetWatchlist "alice"])).
Proof.
  apply (watchlist_uniqueness_invariant cold_world).
  unfold unique_watchlists, unique_coinIds.
  refine (bool_decide_unpack _ _). vm_compute. exact I.
Defined.

Lemma remove_deletes_all_matches_in_order_witness :
  ∃ w', run (delete_watchlist "alice" "eth") cold_world = (Returned (), w')
    ∧ users w' !! "alice" = Some [mkItem "btc" "Bitcoin"].
Proof.
  destruct (remove_deletes_all_matches_in_order cold_world "alice" "eth"
              [mkItem "eth" "Ethereum"; mkItem "btc" "Bitcoin"])
    as (w' & wl' & Hrun & Husers & _ & Hwithout & _); [reflexivity..|].
  exists w'. split; [exact Hrun|]. rewrite Husers. f_equal.
  eapply without_functional; [exact Hwithout|].
  apply without_drop; [reflexivity|].
  apply without_keep; [discriminate|]. apply without_nil.
Defined.

(** ** Paths, traces and frames *)

Lemma step_trace {X : Type} (ef : effect X) (w : world) :
  trace (step ef w).2 = Call ef :: trace w.
Proof.
  destruct ef; simpl; try done.
  - unfold axios_get. simpl. by destruct (upstream w 0%nat).
  - unfold findById. simpl. by destruct (find_fails w 0%nat).
  - unfold save. simpl. by destruct (save_fails w 0%nat).
Qed.

(** A property of every path holds of the run in any world. *)
Lemma paths_run {R : Type} (p : prog R) (Q : list call → outcome R → Prop)
    (acc : list call) (w : world) :
  paths p acc Q →
  ∃ t, trace (run p w).2 = t ++ trace w ∧ Q (t ++ acc) (run p w).1.
Proof.
  revert acc w. induction p as [r|e|X ef k IH]; intros acc w Hpaths; simpl in *.
  - by exists [].
  - by exists [].
  - pose proof (step_trace ef w) as Htrace.
    destruct (step ef w) as [x w1]. simpl in Htrace.
    destruct (IH x (Call ef :: acc) w1 (Hpaths x)) as (t & Ht & HQ).
    exists (t ++ [Call ef]). rewrite <- !(assoc_L (++)). simpl.
    split; [by rewrite Ht, Htrace|done].
Qed.

Lemma step_frame {X : Type} (ef : effect X) (w : world) :
  (is_top_write (Call ef) = false → topCache (step ef w).2 = topCache w)
  ∧ (is_watchlist_cache_write (Call ef) = false →
     watchlistCache (step ef w).2 = watchlistCache w)
  ∧ (is_save (Call ef) = false → users (step ef w).2 = users w).
Proof.
  destruct ef; simpl; unfold axios_get, findById, save; simpl;
    repeat match goal with |- context [if ?b then _ else _] => destruct b
           | |- context [match ?b with _ => _ end] => destruct b end;
    simpl; repeat split; done.
Qed.

Lemma none_of_app (kind : call → bool) (t1 t2 : list call) :
  none_of kind (t1 ++ t2) ↔ none_of kind t1 ∧ none_of kind t2.
Proof. unfold none_of. rewrite List.filter_app. apply app_nil. Qed.

Lemma none_of_singleton (kind : call → bool) (c : call) :
  none_of kind [c] ↔ kind c = false.
Proof. unfold none_of. simpl. by destruct (kind c). Qed.

(** A run changes a piece of state only through the calls that write it. *)
Lemma run_frame {R : Type} (p : prog R) (w : world) :
  ∃ t, trace (run p w).2 = t ++ trace w
    ∧ (none_of is_top_write t → topCache (run p w).2 = topCache w)
    ∧ (none_of is_watchlist_cache_write t →
       watchlistCache (run p w).2 = watchlistCache w)
    ∧ (none_of is_save t → users (run p w).2 = users w).
Proof.
  revert w. induction p as [r|e|X ef k IH]; intros w; simpl.
  - by exists [].
  - by exists [].
  - pose proof (step_trace ef w) as Htrace.
    destruct (step_frame ef w) as (Htop & Hwl & Husers).
    destruct (step ef w) as [x w1]. simpl in *.
    destruct (IH x w1) as (t & Ht & Htop' & Hwl' & Husers').
    exists (t ++ [Call ef]). rewrite <- (assoc_L (++)). simpl.
    split; [by rewrite Ht, Htrace|].
    rewrite !none_of_app, !none_of_singleton.
    split; [|split]; intros [Hall Hone].
    + by rewrite Htop', Htop.
    + by rewrite Hwl', Hwl.
    + by rewrite Husers', Husers.
Qed.

(** Walks every path of a handler, splitting on each answer and test. *)
Ltac walk_step :=
  simpl;
  match goal with
  | |- ∀ _, _ => intro
  | |- paths ?p _ _ =>
      match p with
      | context [deref ?x] => destruct x
      | context [match ?x with _ => _ end] => destruct x
      | context [if ?x then _ else _] => destruct x
      end
  end.
Ltac walk := repeat walk_step; simpl.

(** ** What each route performs *)

Lemma responses_app (t1 t2 : list call) :
  responses (t1 ++ t2) = responses t1 ++ responses t2.
Proof. unfold responses. apply omap_app. Qed.

Lemma handler_paths_allowed (r : request) :
  paths (handler r) [] (λ t _, Forall (λ c, may_perform r c = true) t).
Proof.
  destruct r as [|id|userId c name|userId c|userId]; cbn [handler].
  - unfold get_top. walk; repeat constructor.
  - unfold get_coin. walk; repeat constructor; simpl; try apply String.eqb_refl.
  - unfold post_watchlist. walk; repeat constructor; simpl; try apply String.eqb_refl.
  - unfold delete_watchlist. walk; repeat constructor; simpl; try apply String.eqb_refl.
  - unfold get_watchlist, get_watchlist_body, get_watchlist_fallback.
    walk; repeat constructor; simpl; try apply String.eqb_refl.
Qed.

Lemma allowed_frame (r : request) (t : list call) :
  Forall (λ c, may_perform r c = true) t →
  (r ≠ GetTop → none_of is_top_write t)
  ∧ (¬ is_list_request r → none_of is_watchlist_cache_write t)
  ∧ (¬ is_mutation r → none_of is_save t).
Proof.
  unfold none_of, is_list_request, is_mutation.
  induction 1 as [|c t Hc _ (IHtop & IHwl & IHsave)]; [done|].
  split; [|split]; intros Hr; simpl.
  - rewrite (IHtop Hr). destruct c as [X []]; simpl; try done.
    destruct r; simpl in Hc; done.
  - rewrite (IHwl Hr). destruct c as [X []]; simpl; try done.
    destruct r; simpl in Hc; try done. destruct Hr. eauto.
  - rewrite (IHsave Hr). destruct c as [X []]; simpl; try done.
    destruct r; simpl in Hc; try done; destruct Hr; eauto.
Qed.

(** X5. Each route performs only the effects it is written for.  The market
    routes never touch the persistence collaborator, and the coin-detail
    route touches neither cache nor clock; adding and removing never call
    upstream, read the clock or touch a cache; the list route never saves a
    user record and never touches the top-coins cache; and every read of a
    user record is a read of the requesting user's id. *)
Theorem routes_perform_only_their_effects (r : request) (w : world) :
  ∃ t, trace (serve w r) = t ++ trace w
       ∧ Forall (λ c, may_perform r c = true) t.
Proof.
  destruct (paths_run (handler r) _ [] w (handler_paths_allowed r)) as (t & Ht & Hall).
  exists t. split; [done|]. by rewrite (right_id_L [] (++)) in Hall.
Qed.

Lemma serve_state_frame (r : request) (w : world) :
  (r ≠ GetTop → topCache (serve w r) = topCache w)
  ∧ (¬ is_list_request r → watchlistCache (serve w r) = watchlistCache w)
  ∧ (¬ is_mutation r → users (serve w r) = users w).
Proof.
  unfold serve.
  destruct (paths_run (handler r) _ [] w (handler_paths_allowed r)) as (t & Ht & Hall).
  rewrite (right_id_L [] (++)) in Hall.
  destruct (run_frame (handler r) w) as (t' & Ht' & Htop & Hwl & Husers).
  assert (t' = t) as -> by (eapply app_inv_tail; by rewrite <- Ht, <- Ht').
  destruct (allowed_frame r t Hall) as (Hntop & Hnwl & Hnsave).
  split; [|split]; auto.
Qed.

(** X6. Each route changes only its own state: only a top-coins fetch
    changes [topCache], only a list request changes [watchlistCache], and
    only an add or a remove changes a stored user record. *)
Theorem routes_change_only_their_state (r : request) (w : world) :
  (r ≠ GetTop → topCache (serve w r) = topCache w)
  ∧ (¬ is_list_request r → watchlistCache (serve w r) = watchlistCache w)
  ∧ (¬ is_mutation r → users (serve w r) = users w).
Proof. apply serve_state_frame. Qed.

Lemma handler_paths_one_response (r : request) :
  paths (handler r) []
    (λ t o, match o with
            | Returned _ => ∃ resp, responses t = [resp] ∧ specified_status resp
            | Escaped _ => responses t = [] ∧ is_list_request r
            end).
Proof.
  unfold specified_status, is_list_request.
  destruct r as [|id|userId c name|userId c|userId]; cbn [handler].
  - unfold get_top. walk; eexists; (split; [reflexivity|]); simpl; auto.
  - unfold get_coin. walk; eexists; (split; [reflexivity|]); simpl; auto.
  - unfold post_watchlist. walk; eexists; (split; [reflexivity|]); simpl; auto.
  - unfold delete_watchlist. walk; eexists; (split; [reflexivity|]); simpl; auto.
  - unfold get_watchlist, get_watchlist_body, get_watchlist_fallback.
    walk; first [ by eauto | eexists; (split; [reflexivity|]); simpl; auto ].
Qed.

(** X7. A request is answered at most once.  A handler that returns has
    sent exactly one response, with status 200, 400 or 500; a handler that a
    fault leaves unhandled has sent none, and only the list handler can end
    that way. *)
Theorem one_response_per_request (r : request) (w : world) :
  match (run (handler r) w).1 with
  | Returned _ => ∃ resp, answers w (serve w r) resp ∧ specified_status resp
  | Escaped _ => sends w (serve w r) [] ∧ is_list_request r
  end.
Proof.
  unfold serve, answers, sends.
  destruct (paths_run (handler r) _ [] w (handler_paths_one_response r))
    as (t & Ht & Hone).
  rewrite (right_id_L [] (++)) in Hone. rewrite Ht, responses_app.
  destruct (run (handler r) w).1.
  - destruct Hone as (resp & -> & Hstatus). by exists resp.
  - destruct Hone as [-> Hlist]. done.
Qed.

(** ** Coin detail: [GET /coin/:id] *)

(** X1. A coin-detail request is never served from a cache and never fills
    one: whatever the caches hold, it makes exactly one upstream call, for
    that coin, and nothing else; the answer is the upstream payload with
    status 200, or the fixed 500 error when the call fails. *)
Theorem coin_detail_is_never_cached (id : string) (w : world) :
  ∃ w', run (get_coin id) w = (Returned (), w')
    ∧ trace w' =
        Call (Respond
                match upstream w 0%nat with
                | Some payload => mkResponse 200 (Payload payload)
                | None => mkResponse 500 (ErrorBody "Failed to fetch coin data")
                end)
        :: Call (AxiosGet (CoinDetail id)) :: trace w
    ∧ upstream_calls_made w w' 1
    ∧ cache_lookups_made w w' 0
    ∧ topCache w' = topCache w
    ∧ watchlistCache w' = watchlistCache w.
Proof.
  unfold get_coin. simpl. unfold axios_get. simpl.
  destruct (upstream w 0%nat); simpl; eexists; (split; [reflexivity|done]).
Qed.

(** ** More on the list route *)


(** X3. With the persistence collaborator up and the user's record in
    place, the list handler always ends within the interface: whatever the
    clock, the caches and upstream do, it returns after exactly one response
    of status 200 or 500. *)
Theorem list_handled_when_persistence_up
    (w : world) (userId : string) (wl : list WatchlistItem) :
  users w !! userId = Some wl →
  find_fails w 0%nat = false →
  find_fails w 1%nat = false →
  ∃ w' resp, run (get_watchlist userId) w = (Returned (), w')
    ∧ answers w w' resp
    ∧ (status resp = 200%nat ∨ status resp = 500%nat).
Proof.
  intros Hwl Hfind0 Hfind1.
  unfold get_watchlist, get_watchlist_body, get_watchlist_fallback.
  simpl. unfold findById. simpl. rewrite Hfind0, Hwl. simpl.
  destruct (length wl =? 0)%nat; simpl.
  { eexists _, _. split; [reflexivity|]. split; [done|]. simpl. auto. }
  assert (∀ w1 k,
    users w1 = users w → find_fails w1 = tail (find_fails w) →
    responses (trace w1) = responses (trace w) →
    ∃ w' resp,
      run (try_catch
             (response ← await (AxiosGet (MarketsByIds k));
              stamp ← perform DateNow;
              perform (SetWatchlistCache k (mkEntry response stamp));;
              res_json (Payload response))
             (get_watchlist_fallback userId)) w1 = (Returned (), w')
      ∧ responses (trace w') = resp :: responses (trace w)
      ∧ (status resp = 200%nat ∨ status resp = 500%nat)) as Hrefresh.
  { intros w1 k Husers Hfinds Hresp. unfold get_watchlist_fallback.
    simpl. unfold axios_get. simpl.
    destruct (upstream w1 0%nat); simpl.
    { eexists _, _. split; [reflexivity|]. simpl. rewrite Hresp. auto. }
    unfold findById. simpl. rewrite Hfinds, Husers. unfold tail at 1.
    rewrite Hfind1, Hwl. simpl.
    destruct (truthy_value _); simpl;
      eexists _, _; (split; [reflexivity|]); simpl; rewrite Hresp; auto. }
  destruct (truthy_value _ && _); [|by apply Hrefresh].
  eexists _, _. split; [reflexivity|]. split; [done|]. simpl. auto.
Qed.


(** ** More on adding and removing *)

Lemma filter_other_coinIds_idemp (c : string) (wl : list WatchlistItem) :
  let keep := λ item, negb (String.eqb (coinId item) c) in
  List.filter keep (List.filter keep wl) = List.filter keep wl.
Proof.
  intros keep. apply filter_other_coinIds_absent.
  eapply without_absent, filter_other_coinIds_without.
Qed.

Lemma filter_other_coinIds_push (c name : string) (wl : list WatchlistItem) :
  c ∉ map coinId wl →
  List.filter (λ item, negb (String.eqb (coinId item) c)) (wl ++ [mkItem c name]) = wl.
Proof.
  intros Hnew. rewrite List.filter_app, (filter_other_coinIds_absent _ _ Hnew).
  simpl. rewrite String.eqb_refl. simpl. apply (right_id_L [] (++)).
Qed.

(** X8. A persistence fault during an add is answered with the generic 500
    error and writes nothing: whether the read of the user record is
    rejected, the record does not exist, or the write of the extended list
    is rejected, the stored records are exactly what they were. *)
Theorem add_fault_is_server_error
    (w : world) (userId c name : string) :
  find_fails w 0%nat = true
  ∨ (find_fails w 0%nat = false ∧ users w !! userId = None)
  ∨ (find_fails w 0%nat = false ∧ save_fails w 0%nat = true
     ∧ ∃ wl, users w !! userId = Some wl ∧ c ∉ map coinId wl) →
  ∃ w', run (post_watchlist userId c name) w = (Returned (), w')
    ∧ answers w w' (mkResponse 500 (ErrorBody "Server error"))
    ∧ users w' = users w.
Proof.
  unfold post_watchlist.
  intros [Hfind|[[Hfind Hnone]|(Hfind & Hsave & wl & Hwl & Hnew)]];
    simpl; unfold findById; simpl; rewrite Hfind; simpl.
  - eexists. split; [reflexivity|done].
  - rewrite Hnone. simpl. eexists. split; [reflexivity|done].
  - assert (existsb (λ item, String.eqb (coinId item) c) wl = false) as Hex.
    { apply not_true_iff_false. by rewrite existsb_coinId. }
    rewrite Hwl. simpl. rewrite Hex. simpl. unfold save. simpl. rewrite Hsave. simpl.
    eexists. split; [reflexivity|done].
Qed.

(** X9. A persistence fault during a remove is answered with the generic
    500 error and writes nothing, in the same three cases: rejected read,
    missing record, rejected write. *)
Theorem remove_fault_is_server_error
    (w : world) (userId c : string) :
  find_fails w 0%nat = true
  ∨ (find_fails w 0%nat = false ∧ users w !! userId = None)
  ∨ (find_fails w 0%nat = false ∧ save_fails w 0%nat = true) →
  ∃ w', run (delete_watchlist userId c) w = (Returned (), w')
    ∧ answers w w' (mkResponse 500 (ErrorBody "Server error"))
    ∧ users w' = users w.
Proof.
  unfold delete_watchlist.
  intros [Hfind|[[Hfind Hnone]|(Hfind & Hsave)]];
    simpl; unfold findById; simpl; rewrite Hfind; simpl.
  - eexists. split; [reflexivity|done].
  - rewrite Hnone. simpl. eexists. split; [reflexivity|done].
  - destruct (users w !! userId) as [wl|]; simpl.
    + unfold save. simpl. rewrite Hsave. simpl. eexists. split; [reflexivity|done].
    + eexists. split; [reflexivity|done].
Qed.

(** X10. Adding a coin and then removing it brings the stored records back
    to what they were: the remove sends the original list, and the store
    after both requests equals the store before. *)
Theorem add_then_remove_restores
    (w : world) (userId c name : string) (wl : list WatchlistItem) :
  users w !! userId = Some wl →
  c ∉ map coinId wl →
  find_fails w 0%nat = false → find_fails w 1%nat = false →
  save_fails w 0%nat = false → save_fails w 1%nat = false →
  ∃ w1 w2,
    run (post_watchlist userId c name) w = (Returned (), w1)
    ∧ users w1 !! userId = Some (wl ++ [mkItem c name])
    ∧ run (delete_watchlist userId c) w1 = (Returned (), w2)
    ∧ answers w1 w2 (mkResponse 200 (WatchlistBody "Removed from watchlist" wl))
    ∧ users w2 = users w.
Proof.
  intros Hwl Hnew Hfind0 Hfind1 Hsave0 Hsave1.
  assert (existsb (λ item, String.eqb (coinId item) c) wl = false) as Hex.
  { apply not_true_iff_false. by rewrite existsb_coinId. }
  unfold post_watchlist, delete_watchlist.
  simpl. unfold findById. simpl. rewrite Hfind0, Hwl. simpl. rewrite Hex. simpl.
  unfold save. simpl. rewrite Hsave0. simpl.
  eexists _, _. split; [reflexivity|]. simpl.
  split; [by rewrite lookup_insert_eq|].
  unfold findById. simpl. unfold tail. rewrite Hfind1, lookup_insert_eq. simpl.
  unfold save. simpl. unfold tail. rewrite Hsave1. simpl.
  rewrite (filter_other_coinIds_push _ _ _ Hnew).
  split; [reflexivity|]. simpl. split; [done|].
  rewrite insert_insert_eq. by apply insert_id.
Qed.

(** X11. Adding the same coin twice stores it once: the first add sends the
    extended list, the second (whatever display name it carries) is answered
    with the 400 duplicate error and leaves the stored list, one item longer
    than the original, untouched. *)
Theorem add_twice_stores_once
    (w : world) (userId c name name' : string) (wl : list WatchlistItem) :
  users w !! userId = Some wl →
  c ∉ map coinId wl →
  find_fails w 0%nat = false → find_fails w 1%nat = false →
  save_fails w 0%nat = false →
  ∃ w1 w2,
    run (post_watchlist userId c name) w = (Returned (), w1)
    ∧ answers w w1
        (mkResponse 200 (WatchlistBody "Added to watchlist" (wl ++ [mkItem c name])))
    ∧ run (post_watchlist userId c name') w1 = (Returned (), w2)
    ∧ answers w1 w2 (mkResponse 400 (ErrorBody "Coin already in watchlist"))
    ∧ users w2 !! userId = Some (wl ++ [mkItem c name])
    ∧ length <$> users w2 !! userId = Some (S (length wl)).
Proof.
  intros Hwl Hnew Hfind0 Hfind1 Hsave0.
  assert (existsb (λ item, String.eqb (coinId item) c) wl = false) as Hex.
  { apply not_true_iff_false. by rewrite existsb_coinId. }
  assert (existsb (λ item, String.eqb (coinId item) c) (wl ++ [mkItem c name]) = true)
    as Hex'.
  { rewrite existsb_app. simpl. rewrite String.eqb_refl. apply orb_true_iff. auto. }
  unfold post_watchlist.
  simpl. unfold findById. simpl. rewrite Hfind0, Hwl. simpl. rewrite Hex. simpl.
  unfold save. simpl. rewrite Hsave0. simpl.
  eexists _, _. split; [reflexivity|]. simpl. split; [done|].
  unfold findById. simpl. unfold tail. rewrite Hfind1, lookup_insert_eq. simpl.
  rewrite Hex'. simpl.
  split; [reflexivity|]. simpl. split; [done|].
  rewrite lookup_insert_eq. split; [done|]. simpl.
  rewrite length_app. simpl. f_equal. lia.
Qed.

(** X12. Removing the same coin twice is the same as removing it once: the
    second remove sends and stores exactly the list the first one left. *)
Theorem remove_twice_is_remove_once
    (w : world) (userId c : string) (wl : list WatchlistItem) :
  users w !! userId = Some wl →
  find_fails w 0%nat = false → find_fails w 1%nat = false →
  save_fails w 0%nat = false → save_fails w 1%nat = false →
  ∃ w1 w2 wl',
    run (delete_watchlist userId c) w = (Returned (), w1)
    ∧ answers w w1 (mkResponse 200 (WatchlistBody "Removed from watchlist" wl'))
    ∧ run (delete_watchlist userId c) w1 = (Returned (), w2)
    ∧ answers w1 w2 (mkResponse 200 (WatchlistBody "Removed from watchlist" wl'))
    ∧ users w2 = users w1.
Proof.
  intros Hwl Hfind0 Hfind1 Hsave0 Hsave1.
  unfold delete_watchlist.
  simpl. unfold findById. simpl. rewrite Hfind0, Hwl. simpl.
  unfold save. simpl. rewrite Hsave0. simpl.
  eexists _, _, _. split; [reflexivity|]. simpl. split; [done|].
  unfold findById. simpl. unfold tail. rewrite Hfind1, lookup_insert_eq. simpl.
  unfold save. simpl. unfold tail. rewrite Hsave1. simpl.
  rewrite filter_other_coinIds_idemp.
  split; [reflexivity|]. simpl. split; [done|].
  by rewrite insert_insert_eq.
Qed.

(** X13. A request changes no record but the requesting user's own: unless
    it is an add or a remove made by [userId], the stored watchlist of
    [userId] is the same afterwards; and no request creates a record for a
    user who has none. *)
Theorem other_users_untouched (r : request) (w : world) (userId : string) :
  (¬ mutates r userId → users (serve w r) !! userId = users w !! userId)
  ∧ (users w !! userId = None → users (serve w r) !! userId = None).
Proof.
  unfold mutates, serve.
  destruct r as [|id|userId' c name|userId' c|userId']; cbn [handler].
  - by rewrite get_top_users.
  - by rewrite get_coin_users.
  - destruct (post_watchlist_users userId' c name w) as [->|(wl & Hwl & _ & ->)];
      [done|].
    split.
    + intros Hother. rewrite lookup_insert_ne; [done|].
      intros ->. apply Hother. left. eauto.
    + intros Hnone. rewrite lookup_insert_ne; [done|]. congruence.
  - destruct (delete_watchlist_users userId' c w) as [->|(wl & Hwl & ->)]; [done|].
    split.
    + intros Hother. rewrite lookup_insert_ne; [done|].
      intros ->. apply Hother. right. eauto.
    + intros Hnone. rewrite lookup_insert_ne; [done|]. congruence.
  - by rewrite get_watchlist_users.
Qed.

(** ** The caches over time *)

Lemma get_watchlist_fallback_cache (userId : string) (e : exn) (w : world) :
  watchlistCache (run (get_watchlist_fallback userId e) w).2 = watchlistCache w.
Proof.
  unfold get_watchlist_fallback. simpl. unfold findById. simpl.
  destruct (find_fails w 0%nat); simpl; [done|].
  destruct (users w !! userId) as [wl|]; simpl; [|done].
  by destruct (truthy_value _).
Qed.

Lemma get_watchlist_body_cache_change (userId : string) (w : world) :
  watchlistCache (run (get_watchlist_body userId) w).2 = watchlistCache w
  ∨ ∃ wl payload stamp,
      users w !! userId = Some wl ∧ wl ≠ []
      ∧ watchlistCache (run (get_watchlist_body userId) w).2
        = <[cache_key wl := mkEntry payload stamp]> (watchlistCache w).
Proof.
  unfold get_watchlist_body. simpl. unfold findById. simpl.
  destruct (find_fails w 0%nat); simpl; [by left|].
  destruct (users w !! userId) as [wl|] eqn:Hwl; simpl; [|by left].
  destruct (length wl =? 0)%nat eqn:Hlen; simpl; [by left|].
  assert (wl ≠ []) as Hne by (by intros ->).
  change (join "," (sort (map coinId wl))) with (cache_key wl).
  assert (∀ w1,
    watchlistCache w1 = watchlistCache w →
    let w' := (run (response ← await (AxiosGet (MarketsByIds (cache_key wl)));
                    stamp ← perform DateNow;
                    perform (SetWatchlistCache (cache_key wl) (mkEntry response stamp));;
                    res_json (Payload response)) w1).2 in
    watchlistCache w' = watchlistCache w
    ∨ ∃ payload stamp,
        watchlistCache w' = <[cache_key wl := mkEntry payload stamp]> (watchlistCache w))
    as Hrefresh.
  { intros w1 Hcache. simpl. unfold axios_get. simpl.
    destruct (upstream w1 0%nat) as [payload|]; simpl; [|by left].
    right. rewrite Hcache. eauto. }
  destruct (truthy_value _ && _); [by left|].
  edestruct Hrefresh as [Hsame|(payload & stamp & Hnew)];
    [|left; exact Hsame|right; exists wl, payload, stamp; split_and!; [done..|exact Hnew]].
  done.
Qed.

Lemma get_watchlist_cache_change (userId : string) (w : world) :
  watchlistCache (run (get_watchlist userId) w).2 = watchlistCache w
  ∨ ∃ wl payload stamp,
      users w !! userId = Some wl ∧ wl ≠ []
      ∧ watchlistCache (run (get_watchlist userId) w).2
        = <[cache_key wl := mkEntry payload stamp]> (watchlistCache w).
Proof.
  unfold get_watchlist. rewrite run_try_catch.
  pose proof (get_watchlist_body_cache_change userId w) as Hbody.
  destruct (run (get_watchlist_body userId) w) as [[[]|e] w1]; [done|].
  simpl in Hbody. rewrite get_watchlist_fallback_cache.
  done.
Qed.

Lemma serve_cache_change (r : request) (w : world) :
  watchlistCache (serve w r) = watchlistCache w
  ∨ ∃ userId wl payload stamp,
      r = GetWatchlist userId ∧ users w !! userId = Some wl ∧ wl ≠ []
      ∧ watchlistCache (serve w r)
        = <[cache_key wl := mkEntry payload stamp]> (watchlistCache w).
Proof.
  destruct r as [|id|userId c name|userId c|userId];
    try (left; apply serve_state_frame; by intros [? [=]]).
  unfold serve. cbn [handler].
  destruct (get_watchlist_cache_change userId w)
    as [Hsame|(wl & payload & stamp & Hwl & Hne & Hnew)]; [by left|].
  right. exists userId, wl, payload, stamp. done.
Qed.

(** X14. The watchlist cache never evicts and is written only by the list
    route, under the requester's key.  A key under which an entry is read
    before a sequence of requests still reads as an entry after it; and a
    request that changes what is read under some key is a list request of a
    user with a non-empty stored watchlist, the key being the cache key of
    that watchlist or, when that cache key is "__proto__", one of "data" and
    "cachedAt". *)
Theorem watchlist_cache_only_grows (w : world) (requests : list request) :
  (∀ key entry,
     read_cache (watchlistCache w) key = EntryObject entry →
     ∃ entry', read_cache (watchlistCache (foldl serve w requests)) key
               = EntryObject entry')
  ∧ ∀ r key,
      read_cache (watchlistCache (serve w r)) key ≠ read_cache (watchlistCache w) key →
      ∃ userId wl, r = GetWatchlist userId
                   ∧ users w !! userId = Some wl ∧ wl ≠ []
                   ∧ (key = cache_key wl
                      ∨ (cache_key wl = "__proto__"
                         ∧ (key = "data" ∨ key = "cachedAt"))).
Proof.
  split.
  - assert (dom (watchlistCache w) ⊆ dom (watchlistCache (foldl serve w requests)))
      as Hdom.
    { revert w. induction requests as [|r requests IH]; intros w; simpl; [done|].
      etrans; [|apply IH].
      destruct (serve_cache_change r w)
        as [->|(userId & wl & payload & stamp & _ & _ & _ & ->)]; [done|].
      rewrite dom_insert. set_solver. }
    intros key entry Hentry%read_cache_entry_iff.
    assert (key ∈ dom (watchlistCache (foldl serve w requests))) as Hin.
    { apply Hdom, elem_of_dom. eauto. }
    apply elem_of_dom in Hin as [entry' Hentry'].
    exists entry'. by apply read_cache_entry.
  - intros r key Hdiff.
    destruct (serve_cache_change r w)
      as [Hsame|(userId & wl & payload & stamp & -> & Hwl & Hne & Hnew)].
    { by rewrite Hsame in Hdiff. }
    exists userId, wl. split; [done|]. split; [done|]. split; [done|].
    destruct (decide (key = cache_key wl)) as [->|Hother]; [by left|].
    right.
    destruct (decide (cache_key wl = "__proto__")) as [Hproto|Hnot].
    + split; [done|].
      destruct (decide (key = "data")) as [->|Hdata]; [by left|].
      destruct (decide (key = "cachedAt")) as [->|Hstamp]; [by right|].
      exfalso. apply Hdiff. rewrite Hnew.
      by apply (read_cache_write_other (watchlistCache w) (cache_key wl) key).
    + exfalso. apply Hdiff. rewrite Hnew.
      by apply (read_cache_write_other (watchlistCache w) (cache_key wl) key).
Qed.

Lemma step_upstream {X : Type} (ef : effect X) (w : world) :
  ∃ n, ∀ i, upstream (step ef w).2 i = upstream w (n + i)%nat.
Proof.
  destruct ef; simpl; try (by exists 0%nat).
  - unfold axios_get. simpl. destruct (upstream w 0%nat); by exists 1%nat.
  - unfold findById. simpl. destruct (find_fails w 0%nat); by exists 0%nat.
  - unfold save. simpl. destruct (save_fails w 0%nat); by exists 0%nat.
Qed.

(** Upstream answers are consumed in order: what a run leaves is a suffix
    of what it found. *)
Lemma run_upstream {R : Type} (p : prog R) (w : world) :
  ∃ n, ∀ i, upstream (run p w).2 i = upstream w (n + i)%nat.
Proof.
  revert w. induction p as [r|e|X ef k IH]; intros w; simpl;
    [by exists 0%nat..|].
  destruct (step_upstream ef w) as (n & Hn).
  destruct (step ef w) as [x w1]. simpl in Hn.
  destruct (IH x w1) as (m & Hm).
  exists (n + m)%nat. intros i. rewrite Hm, Hn. f_equal. lia.
Qed.

Lemma get_top_cache_change (w : world) :
  topCache (run get_top w).2 = topCache w
  ∨ ∃ payload stamp, upstream w 0%nat = Some payload
      ∧ topCache (run get_top w).2 = mkEntry payload stamp.
Proof.
  unfold get_top. simpl.
  destruct (truthy (data (topCache w)) && _); simpl; [by left|].
  unfold axios_get. simpl. destruct (upstream w 0%nat) as [payload|]; simpl.
  - right. eauto.
  - left. by destruct (truthy (data (topCache w))).
Qed.

Lemma get_top_answers_stored (w : world) :
  top_entry_exists w →
  ∃ w' payload, run get_top w = (Returned (), w')
    ∧ answers w w' (mkResponse 200 (Payload payload)).
Proof.
  unfold top_entry_exists, get_top. intros Hexists. simpl. rewrite Hexists. simpl.
  destruct (_ <? TTL); simpl; [by eexists _, _|].
  unfold axios_get. simpl. destruct (upstream w 0%nat); simpl; [by eexists _, _|].
  rewrite Hexists. simpl. by eexists _, _.
Qed.

(** X15. Once warm, the top-coins route never fails.  If a snapshot is
    stored and upstream only ever delivers truthy payloads (JSON arrays and
    objects always are), then after any sequence of requests, with upstream
    failing whenever it likes, a snapshot is still stored and a top-coins
    fetch is answered with status 200 and a payload. *)
Theorem top_warm_never_errors (w : world) (requests : list request) :
  top_entry_exists w →
  (∀ i payload, upstream w i = Some payload → truthy payload = true) →
  top_entry_exists (foldl serve w requests)
  ∧ ∃ w' payload,
      run get_top (foldl serve w requests) = (Returned (), w')
      ∧ answers (foldl serve w requests) w' (mkResponse 200 (Payload payload)).
Proof.
  intros Hexists Htruthy.
  assert (top_entry_exists (foldl serve w requests)) as Hwarm.
  { revert w Hexists Htruthy.
    induction requests as [|r requests IH]; intros w Hexists Htruthy; simpl; [done|].
    apply IH.
    - assert (r = GetTop ∨ r ≠ GetTop) as [->|Hother]
        by (destruct r; auto; by right).
      + unfold serve, top_entry_exists. cbn [handler].
        destruct (get_top_cache_change w) as [->|(payload & stamp & Hup & ->)];
          [done|]. simpl. by eapply Htruthy.
      + unfold top_entry_exists.
        destruct (serve_state_frame r w) as [-> _]; done.
    - intros i payload. unfold serve.
      destruct (run_upstream (handler r) w) as (n & ->). apply Htruthy. }
  split; [done|]. by apply get_top_answers_stored.
Qed.

(** ** Status 400 *)

Lemma handler_paths_no_400 (r : request) :
  (∀ userId c name, r ≠ PostWatchlist userId c name) →
  paths (handler r) [] (λ t _, Forall (λ resp, status resp ≠ 400%nat) (responses t)).
Proof.
  intros Hr. destruct r as [|id|userId c name|userId c|userId]; cbn [handler].
  - unfold get_top. walk; by repeat constructor.
  - unfold get_coin. walk; by repeat constructor.
  - by destruct (Hr userId c name).
  - unfold delete_watchlist. walk; by repeat constructor.
  - unfold get_watchlist, get_watchlist_body, get_watchlist_fallback.
    walk; by repeat constructor.
Qed.

Lemma no_400_unless_add (r : request) (w : world) (resp : response) :
  (∀ userId c name, r ≠ PostWatchlist userId c name) →
  answers w (serve w r) resp →
  status resp ≠ 400%nat.
Proof.
  unfold answers, serve. intros Hr Hans.
  destruct (paths_run (handler r) _ [] w (handler_paths_no_400 r Hr))
    as (t & Ht & Hno).
  rewrite (right_id_L [] (++)) in Hno. rewrite Ht, responses_app in Hans.
  destruct (responses t) as [|resp' rest].
  - simpl in Hans. apply (f_equal length) in Hans. simpl in Hans. lia.
  - simpl in Hans. injection Hans as -> _. by inversion Hno.
Qed.

(** X16. Status 400 means a duplicate and nothing else: a request answered
    with 400 is an add whose coin id is already in the stored watchlist of
    the requesting user, and it leaves the stored records unchanged. *)
Theorem status_400_means_duplicate (r : request) (w : world) (resp : response) :
  answers w (serve w r) resp →
  status resp = 400%nat →
  ∃ userId c name wl,
    r = PostWatchlist userId c name
    ∧ users w !! userId = Some wl
    ∧ c ∈ map coinId wl
    ∧ users (serve w r) = users w.
Proof.
  intros Hans Hstatus.
  destruct r as [|id|userId c name|userId c|userId];
    try (exfalso; eapply no_400_unless_add; [|exact Hans|exact Hstatus];
         by intros ???).
  revert Hans. unfold answers, serve. cbn [handler]. unfold post_watchlist.
  simpl. unfold findById. simpl.
  destruct (find_fails w 0%nat); simpl.
  { intros ?. by simplify_eq/=. }
  destruct (users w !! userId) as [wl|] eqn:Hwl; simpl.
  2:{ intros ?. by simplify_eq/=. }
  destruct (existsb _ wl) eqn:Hex; simpl.
  { intros _. exists userId, c, name, wl.
    split; [done|]. split; [done|]. split; [by apply existsb_coinId|done]. }
  unfold save. simpl. destruct (save_fails w 0%nat); simpl;
    intros ?; by simplify_eq/=.
Qed.

(** ** The cache key determines the set of ids *)

Lemma has_comma_app (s1 s2 : string) :
  has_comma (s1 +:+ s2) = has_comma s1 || has_comma s2.
Proof.
  induction s1 as [|a s1 IH]; simpl; [done|].
  rewrite IH. by destruct (Ascii.eqb a ","%char).
Qed.

Lemma append_comma_inj (x y r r' : string) :
  has_comma x = false → has_comma y = false →
  x +:+ "," +:+ r = y +:+ "," +:+ r' → x = y ∧ r = r'.
Proof.
  revert y. induction x as [|a x IH]; intros [|b y] Hx Hy Heq; simpl in *.
  - by simplify_eq.
  - simplify_eq.
  - simplify_eq.
  - injection Heq as -> Heq.
    apply orb_false_iff in Hx as [_ Hx]. apply orb_false_iff in Hy as [_ Hy].
    destruct (IH y Hx Hy Heq) as [-> ->]. done.
Qed.

Lemma join_comma_inj (ids1 ids2 : list string) :
  Forall (λ id, has_comma id = false) ids1 →
  Forall (λ id, has_comma id = false) ids2 →
  ids1 ≠ [] → ids2 ≠ [] →
  join "," ids1 = join "," ids2 → ids1 = ids2.
Proof.
  revert ids2.
  induction ids1 as [|x [|x2 ids1] IH]; intros [|y [|y2 ids2]] H1 H2 Hne1 Hne2 Heq;
    try done.
  - by simplify_eq/=.
  - exfalso. apply Forall_cons in H1 as [Hx _]. cbn [join] in Heq.
    rewrite Heq, has_comma_app in Hx. simpl in Hx.
    by rewrite orb_true_r in Hx.
  - exfalso. apply Forall_cons in H2 as [Hy _]. cbn [join] in Heq.
    rewrite <- Heq, has_comma_app in Hy. simpl in Hy.
    by rewrite orb_true_r in Hy.
  - apply Forall_cons in H1 as [Hx H1]. apply Forall_cons in H2 as [Hy H2].
    change (x +:+ "," +:+ join "," (x2 :: ids1)
            = y +:+ "," +:+ join "," (y2 :: ids2)) in Heq.
    apply append_comma_inj in Heq as [-> Heq]; [|done..].
    f_equal. by apply IH.
Qed.

(** X17. Watchlists that share a cache entry watch the same coins.  For
    non-empty watchlists whose ids contain no comma, equal cache keys mean the
    two lists name the same ids with the same multiplicities: the key of one
    set of coins is never the key of another. *)
Theorem cache_key_determines_ids (wl1 wl2 : list WatchlistItem) :
  wl1 ≠ [] → wl2 ≠ [] →
  comma_free wl1 → comma_free wl2 →
  cache_key wl1 = cache_key wl2 →
  map coinId wl1 ≡ₚ map coinId wl2.
Proof.
  unfold comma_free, cache_key. intros Hne1 Hne2 Hfree1 Hfree2 Hkey.
  assert (∀ wl, wl ≠ [] → Forall (λ item, has_comma (coinId item) = false) wl →
            Forall (λ id, has_comma id = false) (sort (map coinId wl))
            ∧ sort (map coinId wl) ≠ []) as Hsorted.
  { intros wl Hne Hfree. split.
    - rewrite sort_permutation. by apply Forall_fmap.
    - intros Hnil. pose proof (sort_permutation (map coinId wl)) as Hperm.
      rewrite Hnil in Hperm. apply Permutation_nil_l in Hperm.
      by destruct wl. }
  destruct (Hsorted wl1 Hne1 Hfree1) as [Hs1 Hn1].
  destruct (Hsorted wl2 Hne2 Hfree2) as [Hs2 Hn2].
  rewrite <- (sort_permutation (map coinId wl1)), <- (sort_permutation (map coinId wl2)).
  by rewrite (join_comma_inj _ _ Hs1 Hs2 Hn1 Hn2 Hkey).
Qed.

(** ** The application around the router *)

Lemma isProduction_spec (NODE_ENV : option string) :
  isProduction NODE_ENV = true ↔ NODE_ENV = Some "production".
Proof.
  destruct NODE_ENV as [v|]; simpl; [|done].
  rewrite String.eqb_eq. split; [by intros ->|by intros [= ->]].
Qed.

Lemma indexOf_from_range (l : list string) (x : string) (i : Z) :
  0 ≤ i → indexOf_from l x i = -1 ∨ i ≤ indexOf_from l x i.
Proof.
  revert i. induction l as [|y l IH]; intros i Hi; simpl; [by left|].
  destruct (String.eqb y x); [right; lia|].
  destruct (IH (i + 1)) as [?|?]; [lia|by left|right; lia].
Qed.

Lemma indexOf_from_absent (l : list string) (x : string) (i : Z) :
  0 ≤ i → indexOf_from l x i = -1 ↔ x ∉ l.
Proof.
  revert i. induction l as [|y l IH]; intros i Hi; simpl.
  - split; [intros _; apply not_elem_of_nil|done].
  - rewrite not_elem_of_cons. destruct (String.eqb_spec y x) as [->|Hne].
    + split; [lia|by intros [??]].
    + rewrite IH by lia. split; [by split|by intros [??]].
Qed.

(** X18. The CORS check lets a request through exactly when it carries no
    Origin header (or an empty one) or its origin is, character for
    character, one of the three listed origins.  The environment changes
    only the text of the refusal: in production the refusal is a fixed
    sentence that does not repeat the origin. *)
Theorem cors_allows_exactly_listed_origins
    (NODE_ENV : option string) (origin : option string) :
  (cors_origin NODE_ENV origin = CorsAllowed
   ↔ origin = None ∨ origin = Some ""
     ∨ ∃ o, origin = Some o ∧ o ∈ allowedOrigins)
  ∧ (∀ NODE_ENV', cors_origin NODE_ENV origin = CorsAllowed
                  ↔ cors_origin NODE_ENV' origin = CorsAllowed)
  ∧ (∀ error, cors_origin (Some "production") origin = CorsBlocked error →
              error = "Not allowed by CORS").
Proof.
  assert (∀ env, cors_origin env origin = CorsAllowed
            ↔ origin = None ∨ origin = Some ""
              ∨ ∃ o, origin = Some o ∧ o ∈ allowedOrigins) as Hallowed.
  { intros env. unfold cors_origin, indexOf.
    destruct origin as [o|]; [|by split; [left|]].
    destruct (String.eqb_spec o "") as [->|Hne]; [by split; [right; left|]|].
    destruct (indexOf_from allowedOrigins o 0 =? -1) eqn:Hidx.
    - apply Z.eqb_eq, indexOf_from_absent in Hidx; [|done].
      split; [done|]. intros [[=]|[[=]|(o' & [= <-] & Hin)]]; done.
    - apply Z.eqb_neq in Hidx. rewrite indexOf_from_absent in Hidx by done.
      split; [|done]. intros _. right. right. exists o. split; [done|].
      by destruct (decide (o ∈ allowedOrigins)). }
  split; [apply Hallowed|]. split.
  - intros env'. by rewrite !Hallowed.
  - intros error. unfold cors_origin. destruct origin as [o|]; [|done].
    destruct (String.eqb o ""); [done|].
    destruct (_ =? -1); [|done]. simpl. by intros [= <-].
Qed.

(** X19. The health endpoint's status code and body agree: the code is 200,
    the [status] property "healthy" and the [database] property "connected"
    exactly when the connection state is 1 (connected); in every other state
    (disconnected, connecting, disconnecting) the code is 503 with
    "unhealthy" and "disconnected". *)
Theorem health_code_and_body_agree
    (NODE_ENV : option string) (dbStatus : Z) (timestamp : string)
    (uptime memory : json) :
  let r := health NODE_ENV dbStatus timestamp uptime memory in
  (dbStatus = 1 →
   code r = 200
   ∧ field "status" (json_body r) = Some (JStr "healthy")
   ∧ field "database" (json_body r) = Some (JStr "connected"))
  ∧ (dbStatus ≠ 1 →
     code r = 503
     ∧ field "status" (json_body r) = Some (JStr "unhealthy")
     ∧ field "database" (json_body r) = Some (JStr "disconnected"))
  ∧ field "environment" (json_body r) ≠ Some (JStr "").
Proof.
  intros r. unfold r, health. split; [|split].
  - intros ->. done.
  - intros Hne. apply Z.eqb_neq in Hne. rewrite Hne. done.
  - simpl. destruct NODE_ENV as [v|]; [|done].
    destruct (String.eqb_spec v "") as [->|Hne]; [done|]. by intros [= ->].
Qed.

(** X20. Only a process whose [NODE_ENV] is exactly "production" keeps its
    internals to itself.  There, the error handler's body never has a
    [message] or a [stack] property and the unknown-route body is the bare
    error, the same for every path and method; under any other value, or
    none, the error's message and stack and the requested path and method
    are sent to the client. *)
Theorem only_production_hides_internals
    (NODE_ENV : option string) (err : JsError) (url method : string) :
  (NODE_ENV = Some "production" →
   field "message" (json_body (error_handler NODE_ENV err)) = None
   ∧ field "stack" (json_body (error_handler NODE_ENV err)) = None
   ∧ not_found NODE_ENV url method
     = mkReply 404 (JObj [("error", JStr "Route not found")]))
  ∧ (NODE_ENV ≠ Some "production" →
     field "message" (json_body (error_handler NODE_ENV err))
       = JStr <$> err_message err
     ∧ field "stack" (json_body (error_handler NODE_ENV err))
       = JStr <$> err_stack err
     ∧ field "path" (json_body (not_found NODE_ENV url method)) = Some (JStr url)
     ∧ field "method" (json_body (not_found NODE_ENV url method))
       = Some (JStr method)).
Proof.
  unfold error_handler, not_found, isDevelopment. split.
  - intros Hprod%isProduction_spec. rewrite Hprod. simpl.
    destruct (match err_name err with Some _ => _ | None => _ end); simpl;
      [by destruct (err_errors err)|done].
  - intros Hdev. assert (isProduction NODE_ENV = false) as ->.
    { apply not_true_iff_false. by rewrite isProduction_spec. }
    simpl.
    destruct (err_message err), (err_stack err),
      (match err_name err with Some _ => _ | None => _ end); simpl;
      try destruct (err_errors err); done.
Qed.


(** ** The further theorems on the sample worlds *)

Lemma routes_change_only_their_state_witness :
  topCache (serve warm_world (GetWatchlist "alice")) = mkEntry sample_payload 500
  ∧ watchlistCache (serve warm_world GetTop) = ∅
  ∧ users (serve warm_world (GetCoin "bitcoin")) = sample_users.
Proof.
  split; [|split].
  - apply (routes_change_only_their_state (GetWatchlist "alice") warm_world).
    discriminate.
  - apply (routes_change_only_their_state GetTop warm_world).
    intros [userId Heq]. discriminate Heq.
  - apply (routes_change_only_their_state (GetCoin "bitcoin") warm_world).
    intros [(userId & c & name & Heq)|(userId & c & Heq)]; discriminate Heq.
Defined.


Lemma list_handled_when_persistence_up_witness :
  ∃ w' resp, run (get_watchlist "alice") upstream_down_world = (Returned (), w')
    ∧ answers upstream_down_world w' resp
    ∧ (status resp = 200%nat ∨ status resp = 500%nat).
Proof.
  apply (list_handled_when_persistence_up upstream_down_world "alice"
           [mkItem "eth" "Ethereum"; mkItem "btc" "Bitcoin"]); reflexivity.
Defined.


Lemma add_fault_is_server_error_witness :
  ∃ w', run (post_watchlist "alice" "ada" "Cardano") save_down_world = (Returned (), w')
    ∧ answers save_down_world w' (mkResponse 500 (ErrorBody "Server error"))
    ∧ users w' = sample_users.
Proof.
  apply (add_fault_is_server_error save_down_world "alice" "ada" "Cardano").
  right. right. split; [reflexivity|]. split; [reflexivity|].
  exists [mkItem "eth" "Ethereum"; mkItem "btc" "Bitcoin"].
  split; [reflexivity|]. simpl. intros Hin%list_elem_of_In. simpl in Hin.
  destruct Hin as [Heq|[Heq|[]]]; discriminate Heq.
Defined.

Lemma remove_fault_is_server_error_witness :
  ∃ w', run (delete_watchlist "alice" "eth") persistence_down_world = (Returned (), w')
    ∧ answers persistence_down_world w' (mkResponse 500 (ErrorBody "Server error"))
    ∧ users w' = sample_users.
Proof.
  apply (remove_fault_is_server_error persistence_down_world "alice" "eth").
  left. reflexivity.
Defined.

Lemma add_then_remove_restores_witness :
  ∃ w1 w2,
    run (post_watchlist "alice" "ada" "Cardano") cold_world = (Returned (), w1)
    ∧ run (delete_watchlist "alice" "ada") w1 = (Returned (), w2)
    ∧ users w2 = sample_users.
Proof.
  destruct (add_then_remove_restores cold_world "alice" "ada" "Cardano"
              [mkItem "eth" "Ethereum"; mkItem "btc" "Bitcoin"])
    as (w1 & w2 & Hrun1 & _ & Hrun2 & _ & Husers).
  - reflexivity.
  - simpl. intros Hin%list_elem_of_In. simpl in Hin.
    destruct Hin as [Heq|[Heq|[]]]; discriminate Heq.
  - reflexivity.
  - reflexivity.
  - reflexivity.
  - reflexivity.
  - exists w1, w2. repeat split; assumption.
Defined.

Lemma add_twice_stores_once_witness :
  ∃ w1 w2,
    run (post_watchlist "alice" "ada" "Cardano") cold_world = (Returned (), w1)
    ∧ run (post_watchlist "alice" "ada" "ADA") w1 = (Returned (), w2)
    ∧ answers w1 w2 (mkResponse 400 (ErrorBody "Coin already in watchlist"))
    ∧ length <$> users w2 !! "alice" = Some 3%nat.
Proof.
  destruct (add_twice_stores_once cold_world "alice" "ada" "Cardano" "ADA"
              [mkItem "eth" "Ethereum"; mkItem "btc" "Bitcoin"])
    as (w1 & w2 & Hrun1 & _ & Hrun2 & Hans & _ & Hlen).
  - reflexivity.
  - simpl. intros Hin%list_elem_of_In. simpl in Hin.
    destruct Hin as [Heq|[Heq|[]]]; discriminate Heq.
  - reflexivity.
  - reflexivity.
  - reflexivity.
  - exists w1, w2. repeat split; assumption.
Defined.

Lemma remove_twice_is_remove_once_witness :
  ∃ w1 w2,
    run (delete_watchlist "alice" "eth") cold_world = (Returned (), w1)
    ∧ run (delete_watchlist "alice" "eth") w1 = (Returned (), w2)
    ∧ users w2 = users w1.
Proof.
  destruct (remove_twice_is_remove_once cold_world "alice" "eth"
              [mkItem "eth" "Ethereum"; mkItem "btc" "Bitcoin"])
    as (w1 & w2 & wl' & Hrun1 & _ & Hrun2 & _ & Husers); [reflexivity..|].
  exists w1, w2. repeat split; assumption.
Defined.

Lemma other_users_untouched_witness :
  users (serve cold_world (DeleteWatchlist "alice" "eth")) !! "bob"
  = Some [mkItem "btc" "Bitcoin"; mkItem "eth" "Ethereum"]
  ∧ users (serve cold_world (PostWatchlist "dave" "eth" "Ethereum")) !! "dave" = None.
Proof.
  split.
  - destruct (other_users_untouched (DeleteWatchlist "alice" "eth") cold_world "bob")
      as [Hother _].
    rewrite Hother; [reflexivity|].
    intros [(c & name & Heq)|(c & Heq)]; discriminate Heq.
  - apply (other_users_untouched (PostWatchlist "dave" "eth" "Ethereum") cold_world).
    reflexivity.
Defined.

Lemma watchlist_cache_only_grows_witness :
  ∃ userId wl, GetWatchlist "alice" = GetWatchlist userId
               ∧ users cold_world !! userId = Some wl ∧ wl ≠ []
               ∧ ("btc,eth" = cache_key wl
                  ∨ (cache_key wl = "__proto__"
                     ∧ ("btc,eth" = "data" ∨ "btc,eth" = "cachedAt"))).
Proof.
  destruct (watchlist_cache_only_grows cold_world []) as [_ Hkey].
  apply Hkey. vm_compute. discriminate.
Defined.

Lemma top_warm_never_errors_witness :
  ∃ w' payload,
    run get_top (foldl serve warm_world [GetTop; GetCoin "bitcoin"; GetWatchlist "bob"])
      = (Returned (), w')
    ∧ answers (foldl serve warm_world [GetTop; GetCoin "bitcoin"; GetWatchlist "bob"]) w'
        (mkResponse 200 (Payload payload)).
Proof.
  apply (top_warm_never_errors warm_world
           [GetTop; GetCoin "bitcoin"; GetWatchlist "bob"]).
  - reflexivity.
  - intros i payload Hup. injection Hup as <-. reflexivity.
Defined.

Lemma status_400_means_duplicate_witness :
  ∃ userId c name wl,
    PostWatchlist "alice" "btc" "Bitcoin" = PostWatchlist userId c name
    ∧ users cold_world !! userId = Some wl
    ∧ c ∈ map coinId wl
    ∧ users (serve cold_world (PostWatchlist "alice" "btc" "Bitcoin")) = users cold_world.
Proof.
  apply (status_400_means_duplicate (PostWatchlist "alice" "btc" "Bitcoin") cold_world
           (mkResponse 400 (ErrorBody "Coin already in watchlist")));
    reflexivity.
Defined.

Lemma cache_key_determines_ids_witness :
  map coinId [mkItem "eth" "Ethereum"; mkItem "btc" "Bitcoin"]
  ≡ₚ map coinId [mkItem "btc" "BTC"; mkItem "eth" "ETH"].
Proof.
  apply cache_key_determines_ids.
  - discriminate.
  - discriminate.
  - repeat constructor.
  - repeat constructor.
  - reflexivity.
Defined.

Lemma cors_allows_exactly_listed_origins_witness :
  cors_origin (Some "production") (Some "http://localhost:3000") = CorsAllowed
  ∧ ∀ error, cors_origin (Some "production") (Some "https://evil.example")
             = CorsBlocked error → error = "Not allowed by CORS".
Proof.
  split.
  - destruct (cors_allows_exactly_listed_origins (Some "production")
                (Some "http://localhost:3000")) as [Hiff _].
    apply Hiff. right. right. exists "http://localhost:3000". split; [reflexivity|].
    apply list_elem_of_In. simpl. auto.
  - destruct (cors_allows_exactly_listed_origins (Some "production")
                (Some "https://evil.example")) as (_ & _ & Hfixed).
    exact Hfixed.
Defined.

Lemma health_code_and_body_agree_witness :
  code (health (Some "production") 1 "2024-01-01T00:00:00.000Z" (JNum 12) JNull) = 200
  ∧ code (health (Some "production") 2 "2024-01-01T00:00:00.000Z" (JNum 12) JNull) = 503.
Proof.
  split.
  - apply (health_code_and_body_agree (Some "production") 1). reflexivity.
  - apply (health_code_and_body_agree (Some "production") 2). discriminate.
Defined.

Lemma only_production_hides_internals_witness :
  field "stack" (json_body (error_handler (Some "production") sample_error)) = None
  ∧ field "stack" (json_body (error_handler (Some "Production") sample_error))
    = Some (JStr "ValidationError: coinId is required at model.js:1").
Proof.
  split.
  - apply (only_production_hides_internals (Some "production") sample_error "/x" "GET").
    reflexivity.
  - apply (only_production_hides_internals (Some "Production") sample_error "/x" "GET").
    discriminate.
Defined.

